(** * G-band correction for Gaia EDR3 sources with 6-parameter solutions

    A shallow embedding of [correct_gband] (GCorrectionCode.ipynb) and of
    the part of NumPy it runs on, followed by the properties of the
    function.

    The function is written once, over an interface of element-wise
    numeric operations ([Numeric]).  Two instances interpret it:

    - [IEEE]: IEEE 754 binary32 / binary64 values ([spec_float]) with the
      rounding of every operation written out, the two libm functions the
      code calls ([pow], [log10]) taken as parameters;
    - [Ideal]: extended real numbers, every operation exact.                *)

From Stdlib Require Import String.
From Stdlib Require Import ZArith QArith List Bool Lia.
From Stdlib Require Import Floats.SpecFloat.
From Stdlib Require Import Reals Lra.
Import ListNotations.

Set Implicit Arguments.

(* ================================================================== *)
(** * 1. Data types and dtypes                                         *)
(* ================================================================== *)

(** The floating-point dtypes an input array may carry. *)
Inductive dtype : Type := float32 | float64.

Definition dtype_eqb (a b : dtype) : bool :=
  match a, b with
  | float32, float32 | float64, float64 => true
  | _, _ => false
  end.

(** NumPy's promotion of two floating-point dtypes. *)
Definition result_type (a b : dtype) : dtype :=
  match a, b with
  | float32, float32 => float32
  | _, _ => float64
  end.

(** Element-wise operations the code relies on.  [literal q] is the value
    of the Python literal written [q] (a binary64 number); the arithmetic
    operations are the inner loops of the ufuncs for a given dtype. *)
Class Numeric (F : Type) : Type := {
  literal : Q -> F;
  astype : dtype -> F -> F;
  isnan : F -> bool;
  less : F -> F -> bool;
  less_equal : F -> F -> bool;
  add : dtype -> F -> F -> F;
  subtract : dtype -> F -> F -> F;
  multiply : dtype -> F -> F -> F;
  power : dtype -> F -> positive -> F;
  log10 : dtype -> F -> F
}.

(** An array: its shape and its elements in C order.  Masks and integer
    arrays are [ndarray]s; floating-point arrays also carry their dtype. *)
Record ndarray (A : Type) : Type :=
  mk_ndarray { shape : list nat; data : list A }.

Record farray (F : Type) : Type :=
  mk_farray { dtype_of : dtype; fshape : list nat; fdata : list F }.

(** What a caller may pass: a Python scalar or an array. *)
Inductive arg (S A : Type) : Type :=
  | Scalar (x : S)
  | Array (a : A).
Arguments Scalar {S A} x.
Arguments Array {S A} a.

Inductive exn : Type := ValueError (msg : string).

Inductive result (A : Type) : Type :=
  | Ok (a : A)
  | Raise (e : exn).
Arguments Ok {A} a.
Arguments Raise {A} e.

(** [ValueError('Function parameters must be of the same shape!')] *)
Definition shape_mismatch : exn :=
  ValueError "Function parameters must be of the same shape!".

(* ================================================================== *)
(** * 2. The NumPy operations used by the function                     *)
(* ================================================================== *)

Section ListOps.
Context {A B C : Type}.

Fixpoint map2 (f : A -> B -> C) (xs : list A) (ys : list B) : list C :=
  match xs, ys with
  | x :: xs', y :: ys' => f x y :: map2 f xs' ys'
  | _, _ => []
  end.

(** [xs[mask]]: the elements selected by a boolean mask. *)
Fixpoint compress (mask : list bool) (xs : list A) : list A :=
  match mask, xs with
  | b :: mask', x :: xs' =>
      if b then x :: compress mask' xs' else compress mask' xs'
  | _, _ => []
  end.

(** [xs[mask] = vs]: the selected positions take the values of [vs] in
    order, the others keep theirs. *)
Fixpoint place (xs : list A) (mask : list bool) (vs : list A) : list A :=
  match xs, mask with
  | x :: xs', b :: mask' =>
      if b then
        match vs with
        | v :: vs' => v :: place xs' mask' vs'
        | [] => x :: place xs' mask' []
        end
      else x :: place xs' mask' vs
  | _, _ => xs
  end.
End ListOps.

Definition shape_eqb (s t : list nat) : bool :=
  if list_eq_dec Nat.eq_dec s t then true else false.

Section NumPy.
Context {F : Type} {N : Numeric F}.

(** A value of dtype [from] as an operand of a loop of dtype [to]. *)
Definition convert (from to : dtype) (x : F) : F :=
  if dtype_eqb from to then x else astype to x.

(** A Python scalar as an operand next to an array of dtype [dt]. *)
Definition pyscalar (dt : dtype) (q : Q) : F :=
  convert float64 dt (literal q).

Definition np_isscalar {S A : Type} (x : arg S A) : bool :=
  match x with Scalar _ => true | Array _ => false end.

(** [np.float64(x)] *)
Definition np_float64 (x : arg F (farray F)) : farray F :=
  match x with
  | Scalar v => mk_farray float64 [] [v]
  | Array a =>
      mk_farray float64 (fshape a)
                (map (convert (dtype_of a) float64) (fdata a))
  end.

(** [np.int64(x)] *)
Definition np_int64 (x : arg Z (ndarray Z)) : ndarray Z :=
  match x with
  | Scalar v => mk_ndarray [] [v]
  | Array a => a
  end.

Definition np_isnan (a : farray F) : ndarray bool :=
  mk_ndarray (fshape a) (map isnan (fdata a)).

(** [a <= q], [a > q] for a Python number [q]. *)
Definition le_scalar (a : farray F) (q : Q) : ndarray bool :=
  mk_ndarray (fshape a)
    (map (fun x => less_equal x (pyscalar (dtype_of a) q)) (fdata a)).

Definition gt_scalar (a : farray F) (q : Q) : ndarray bool :=
  mk_ndarray (fshape a)
    (map (fun x => less (pyscalar (dtype_of a) q) x) (fdata a)).

(** [a != k] on integers. *)
Definition ne_scalar (a : ndarray Z) (k : Z) : ndarray bool :=
  mk_ndarray (shape a) (map (fun x => negb (Z.eqb x k)) (data a)).

Definition np_logical_not (a : ndarray bool) : ndarray bool :=
  mk_ndarray (shape a) (map negb (data a)).

Definition bor (a b : ndarray bool) : ndarray bool :=
  mk_ndarray (shape a) (map2 orb (data a) (data b)).

Definition band (a b : ndarray bool) : ndarray bool :=
  mk_ndarray (shape a) (map2 andb (data a) (data b)).

(** [np.maximum], [np.minimum] propagate a NaN first operand; the second
    operand is a bound here and never NaN. *)
Definition maximum (x y : F) : F :=
  if isnan x then x else if less y x then x else y.

Definition minimum (x y : F) : F :=
  if isnan x then x else if less x y then x else y.

Definition clip1 (dt : dtype) (x : F) (lo hi : Q) : F :=
  minimum (maximum x (pyscalar dt lo)) (pyscalar dt hi).

(** [np.clip(a, lo, hi)] *)
Definition np_clip (a : farray F) (lo hi : Q) : farray F :=
  mk_farray (dtype_of a) (fshape a)
    (map (fun x => clip1 (dtype_of a) x lo hi) (fdata a)).

(** [np.ones_like(a)] *)
Definition np_ones_like (a : farray F) : farray F :=
  mk_farray (dtype_of a) (fshape a)
    (map (fun _ => pyscalar (dtype_of a) 1) (fdata a)).

(** [a[mask]]: a one-dimensional array. *)
Definition getitem (a : farray F) (mask : ndarray bool) : farray F :=
  let sel := compress (data mask) (fdata a) in
  mk_farray (dtype_of a) [length sel] sel.

(** [a[mask] = v]: the values are converted to the dtype of [a]. *)
Definition setitem (a : farray F) (mask : ndarray bool) (v : farray F)
  : farray F :=
  mk_farray (dtype_of a) (fshape a)
    (place (fdata a) (data mask)
           (map (convert (dtype_of v) (dtype_of a)) (fdata v))).

(** Binary ufuncs between two arrays of one shape. *)
Definition ufunc2 (op : dtype -> F -> F -> F) (a b : farray F) : farray F :=
  let rt := result_type (dtype_of a) (dtype_of b) in
  mk_farray rt (fshape a)
    (map2 (fun x y => op rt (convert (dtype_of a) rt x)
                            (convert (dtype_of b) rt y))
          (fdata a) (fdata b)).

(** Binary ufuncs between a Python float and an array. *)
Definition ufunc2_scalar (op : dtype -> F -> F -> F) (q : Q) (a : farray F)
  : farray F :=
  mk_farray (dtype_of a) (fshape a)
    (map (op (dtype_of a) (pyscalar (dtype_of a) q)) (fdata a)).

(** [np.power(a, k)] for a Python integer [k]. *)
Definition np_power (a : farray F) (k : positive) : farray F :=
  mk_farray (dtype_of a) (fshape a)
    (map (fun x => power (dtype_of a) x k) (fdata a)).

Definition np_log10 (a : farray F) : farray F :=
  mk_farray (dtype_of a) (fshape a) (map (log10 (dtype_of a)) (fdata a)).
End NumPy.

(* ================================================================== *)
(** * 3. The function                                                  *)
(* ================================================================== *)

Section CorrectGband.
Context {F : Type} {N : Numeric F}.

(** For an argument that is an array, the array itself. *)
Definition asarray (x : arg F (farray F)) : farray F :=
  match x with Array a => a | Scalar _ => np_float64 x end.

Definition asarray_int (x : arg Z (ndarray Z)) : ndarray Z :=
  match x with Array a => a | Scalar _ => np_int64 x end.

(** The first statement: when one argument is a scalar, all four go
    through [np.float64] / [np.int64]. *)
Definition normalize (bp_rp : arg F (farray F))
           (astrometric_params_solved : arg Z (ndarray Z))
           (phot_g_mean_mag phot_g_mean_flux : arg F (farray F))
  : farray F * ndarray Z * farray F * farray F :=
  if np_isscalar bp_rp || np_isscalar astrometric_params_solved
     || np_isscalar phot_g_mean_mag || np_isscalar phot_g_mean_flux
  then (np_float64 bp_rp, np_int64 astrometric_params_solved,
        np_float64 phot_g_mean_mag, np_float64 phot_g_mean_flux)
  else (asarray bp_rp, asarray_int astrometric_params_solved,
        asarray phot_g_mean_mag, asarray phot_g_mean_flux).

(** [a.shape == b.shape == c.shape == d.shape] *)
Definition same_shape (bp_rp : farray F) (aps : ndarray Z)
           (mag flux : farray F) : bool :=
  shape_eqb (fshape bp_rp) (shape aps)
  && shape_eqb (shape aps) (fshape mag)
  && shape_eqb (fshape mag) (fshape flux).

Definition do_not_correct (bp_rp : farray F) (aps : ndarray Z)
           (mag : farray F) : ndarray bool :=
  bor (bor (np_isnan bp_rp) (le_scalar mag 13)) (ne_scalar aps 95).

Definition bright_correct (dnc : ndarray bool) (mag : farray F)
  : ndarray bool :=
  band (band (np_logical_not dnc) (gt_scalar mag 13)) (le_scalar mag 16).

Definition faint_correct (dnc : ndarray bool) (mag : farray F)
  : ndarray bool :=
  band (np_logical_not dnc) (gt_scalar mag 16).

(** [1.00525 - 0.02323*x + 0.01740*np.power(x,2) - 0.00253*np.power(x,3)] *)
Definition faint_polynomial (x : farray F) : farray F :=
  ufunc2 subtract
    (ufunc2 add
       (ufunc2_scalar subtract 1.00525 (ufunc2_scalar multiply 0.02323 x))
       (ufunc2_scalar multiply 0.01740 (np_power x 2)))
    (ufunc2_scalar multiply 0.00253 (np_power x 3)).

(** [1.00876 - 0.02540*x + 0.01747*np.power(x,2) - 0.00277*np.power(x,3)] *)
Definition bright_polynomial (x : farray F) : farray F :=
  ufunc2 subtract
    (ufunc2 add
       (ufunc2_scalar subtract 1.00876 (ufunc2_scalar multiply 0.02540 x))
       (ufunc2_scalar multiply 0.01747 (np_power x 2)))
    (ufunc2_scalar multiply 0.00277 (np_power x 3)).

Definition correction_factor (bp_rp : farray F) (aps : ndarray Z)
           (mag : farray F) : farray F :=
  let dnc := do_not_correct bp_rp aps mag in
  let bright := bright_correct dnc mag in
  let faint := faint_correct dnc mag in
  let bp_rp_c := np_clip bp_rp 0.25 3.0 in
  let cf := np_ones_like mag in
  let cf := setitem cf faint (faint_polynomial (getitem bp_rp_c faint)) in
  let cf := setitem cf bright (bright_polynomial (getitem bp_rp_c bright)) in
  cf.

Definition gmag_corrected (mag cf : farray F) : farray F :=
  ufunc2 subtract mag (ufunc2_scalar multiply 2.5 (np_log10 cf)).

Definition gflux_corrected (flux cf : farray F) : farray F :=
  ufunc2 multiply flux cf.

Definition correct_gband (bp_rp : arg F (farray F))
           (astrometric_params_solved : arg Z (ndarray Z))
           (phot_g_mean_mag phot_g_mean_flux : arg F (farray F))
  : result (farray F * farray F) :=
  let '(bp_rp, aps, mag, flux) :=
    normalize bp_rp astrometric_params_solved
              phot_g_mean_mag phot_g_mean_flux in
  if negb (same_shape bp_rp aps mag flux) then
    Raise shape_mismatch
  else
    let cf := correction_factor bp_rp aps mag in
    Ok (gmag_corrected mag cf, gflux_corrected flux cf).
End CorrectGband.

(* ================================================================== *)
(** * 4. What the function does to one source                          *)
(* ================================================================== *)

(** One row of the input table. *)
Record source (F : Type) : Type := mk_source {
  colour : F;
  params_solved : Z;
  gmag : F;
  gflux : F
}.

Section Elementwise.
Context {F : Type} {N : Numeric F}.

(** The dtypes of the colour, magnitude and flux arrays. *)
Variables dc dm df : dtype.

Definition do_not_correct1 (s : source F) : bool :=
  isnan (colour s) || less_equal (gmag s) (pyscalar dm 13)
  || negb (params_solved s =? 95)%Z.

Definition bright_correct1 (s : source F) : bool :=
  negb (do_not_correct1 s) && less (pyscalar dm 13) (gmag s)
  && less_equal (gmag s) (pyscalar dm 16).

Definition faint_correct1 (s : source F) : bool :=
  negb (do_not_correct1 s) && less (pyscalar dm 16) (gmag s).

Definition clipped_colour (s : source F) : F :=
  clip1 dc (colour s) 0.25 3.0.

Definition faint_polynomial1 (c : F) : F :=
  subtract dc
    (add dc
       (subtract dc (pyscalar dc 1.00525)
                 (multiply dc (pyscalar dc 0.02323) c))
       (multiply dc (pyscalar dc 0.01740) (power dc c 2)))
    (multiply dc (pyscalar dc 0.00253) (power dc c 3)).

Definition bright_polynomial1 (c : F) : F :=
  subtract dc
    (add dc
       (subtract dc (pyscalar dc 1.00876)
                 (multiply dc (pyscalar dc 0.02540) c))
       (multiply dc (pyscalar dc 0.01747) (power dc c 2)))
    (multiply dc (pyscalar dc 0.00277) (power dc c 3)).

Definition correction_factor1 (s : source F) : F :=
  if bright_correct1 s then
    convert dc dm (bright_polynomial1 (clipped_colour s))
  else if faint_correct1 s then
    convert dc dm (faint_polynomial1 (clipped_colour s))
  else pyscalar dm 1.

Definition gmag_corrected1 (s : source F) : F :=
  subtract dm (gmag s)
           (multiply dm (pyscalar dm 2.5) (log10 dm (correction_factor1 s))).

Definition gflux_corrected1 (s : source F) : F :=
  let rt := result_type df dm in
  multiply rt (convert df rt (gflux s)) (convert dm rt (correction_factor1 s)).
End Elementwise.

(** The table whose columns are four lists. *)
Fixpoint zip4 {F : Type} (cs : list F) (ps : list Z) (ms fs : list F)
  : list (source F) :=
  match cs, ps, ms, fs with
  | c :: cs', p :: ps', m :: ms', f :: fs' =>
      mk_source c p m f :: zip4 cs' ps' ms' fs'
  | _, _, _, _ => []
  end.

(** Number of elements of an array of a given shape. *)
Definition size (sh : list nat) : nat := fold_right Nat.mul 1%nat sh.

Definition well_formed {F : Type} (a : farray F) : Prop :=
  length (fdata a) = size (fshape a).

Definition well_formed_int (a : ndarray Z) : Prop :=
  length (data a) = size (shape a).

(** Arrays given as columns of a table. *)
Definition column {F : Type} (dt : dtype) (sh : list nat) (f : source F -> F)
           (rows : list (source F)) : farray F :=
  mk_farray dt sh (map f rows).

(** Arguments as a caller may pass them: every array has as many elements
    as its shape says. *)
Definition well_formed_args {F : Type} (bp_rp : arg F (farray F))
           (aps : arg Z (ndarray Z)) (mag flux : arg F (farray F)) : Prop :=
  match bp_rp with Array a => well_formed a | Scalar _ => True end
  /\ match aps with Array a => well_formed_int a | Scalar _ => True end
  /\ match mag with Array a => well_formed a | Scalar _ => True end
  /\ match flux with Array a => well_formed a | Scalar _ => True end.

(** A call that passes the shape check: [a], [b], [c], [d] are the four
    arguments after the first statement of the function. *)
Definition accepted {F : Type} {N : Numeric F} (bp_rp : arg F (farray F))
           (aps : arg Z (ndarray Z)) (mag flux : arg F (farray F))
           (a : farray F) (b : ndarray Z) (c d : farray F) : Prop :=
  well_formed_args bp_rp aps mag flux
  /\ normalize bp_rp aps mag flux = (a, b, c, d)
  /\ same_shape a b c d = true.

(** The rows of the table the four arrays are the columns of. *)
Definition sources {F : Type} (a : farray F) (b : ndarray Z) (c d : farray F)
  : list (source F) :=
  zip4 (fdata a) (data b) (fdata c) (fdata d).

(** A source is eligible for correction when its colour is a number, its
    solution code is 95 and its magnitude is above 13. *)
Definition eligible {F : Type} {N : Numeric F} (dm : dtype) (s : source F)
  : Prop :=
  isnan (colour s) = false
  /\ params_solved s = 95%Z
  /\ less (pyscalar dm 13) (gmag s) = true.

(** Two colours that enter the polynomial as the same value: equal, or
    both at most 0.25, or both at least 3.0. *)
Definition same_clipped_colour {F : Type} {N : Numeric F} (dt : dtype)
           (x y : F) : Prop :=
  x = y
  \/ (less_equal x (pyscalar dt 0.25) = true
      /\ less_equal y (pyscalar dt 0.25) = true)
  \/ (less_equal (pyscalar dt 3.0) x = true
      /\ less_equal (pyscalar dt 3.0) y = true).

(** The two results for a source given its correction factor. *)
Definition corrected_with {F : Type} {N : Numeric F} (dm df : dtype)
           (factor : F) (s : source F) : F * F :=
  let rt := result_type df dm in
  (subtract dm (gmag s) (multiply dm (pyscalar dm 2.5) (log10 dm factor)),
   multiply rt (convert df rt (gflux s)) (convert dm rt factor)).

(** The shape of an argument: [()] for a Python scalar. *)
Definition arg_shape {F : Type} (x : arg F (farray F)) : list nat :=
  match x with Scalar _ => [] | Array a => fshape a end.

Definition arg_shape_int (x : arg Z (ndarray Z)) : list nat :=
  match x with Scalar _ => [] | Array a => shape a end.
(* ================================================================== *)
(** * 5. IEEE 754 arithmetic                                           *)
(* ================================================================== *)

Module IEEE.
Local Open Scope Z_scope.

(** binary32 and binary64: bits of the significand, exponent of the
    infinities. *)
Definition prec (dt : dtype) : Z :=
  match dt with float32 => 24 | float64 => 53 end.

Definition emax (dt : dtype) : Z :=
  match dt with float32 => 128 | float64 => 1024 end.

(** A value is a NaN, an infinity, a zero, or a finite number in the
    canonical representation of the dtype. *)
Definition valid (dt : dtype) (x : spec_float) : bool :=
  valid_binary (prec dt) (emax dt) x.

(** The rational [q] rounded to nearest, ties to even: the value of a
    decimal literal. *)
Definition round_Q (dt : dtype) (q : Q) : spec_float :=
  let round s n :=
    let '(m, e, l) :=
      SFdiv_core_binary (prec dt) (emax dt) (Zpos n) 0 (Zpos (Qden q)) 0 in
    binary_round_aux (prec dt) (emax dt) s m e l in
  match Qnum q with
  | Z0 => S754_zero false
  | Zpos n => round false n
  | Zneg n => round true n
  end.

(** Conversion between the formats: exact when widening, rounded to
    nearest when narrowing. *)
Definition cast (dt : dtype) (x : spec_float) : spec_float :=
  match x with
  | S754_finite s m e => binary_round (prec dt) (emax dt) s m e
  | _ => x
  end.

Definition is_nan (x : spec_float) : bool :=
  match x with S754_nan => true | _ => false end.

(** The two functions NumPy takes from the C library, per dtype
    ([pow]/[powf] at an integer exponent, [log10]/[log10f]). *)
Class libm : Type := mk_libm {
  libm_pow : dtype -> spec_float -> positive -> spec_float;
  libm_log10 : dtype -> spec_float -> spec_float
}.

#[export] Instance numeric {L : libm} : Numeric spec_float := {|
  literal := round_Q float64;
  astype := cast;
  isnan := is_nan;
  less := SFltb;
  less_equal := SFleb;
  add := fun dt => SFadd (prec dt) (emax dt);
  subtract := fun dt => SFsub (prec dt) (emax dt);
  multiply := fun dt => SFmul (prec dt) (emax dt);
  power := libm_pow;
  log10 := libm_log10
|}.

(** 1.0 and +0.0 *)
Definition one (dt : dtype) : spec_float :=
  match dt with
  | float32 => S754_finite false 8388608 (-23)
  | float64 => S754_finite false 4503599627370496 (-52)
  end.

Definition zero : spec_float := S754_zero false.

(** What the properties below need of the C library: [log10(1)] is [+0]
    (C99, F.9.3.8). *)
Definition log10_one (L : libm) : Prop :=
  forall dt, libm_log10 dt (one dt) = zero.

(** ** A reference C library

    [pow] is the exact power rounded once; [log10] is evaluated in
    fixed point with 128 fractional bits from the series of [atanh] and
    rounded. *)

Definition pow_ref (dt : dtype) (x : spec_float) (k : positive)
  : spec_float :=
  let neg s := s && Z.odd (Zpos k) in
  match x with
  | S754_nan => S754_nan
  | S754_infinity s => S754_infinity (neg s)
  | S754_zero s => S754_zero (neg s)
  | S754_finite s m e =>
      binary_round (prec dt) (emax dt) (neg s) (Pos.pow m k) (e * Zpos k)
  end.

Definition fx_one : Z := 2 ^ 128.

Definition fx_mul (a b : Z) : Z := Z.shiftr (a * b) 128.

(** [1/d + z2/(d+2) + z2^2/(d+4) + ...], [k] terms. *)
Fixpoint atanh_terms (z2 : Z) (k : nat) (d : Z) : Z :=
  match k with
  | O => 0
  | S k' => fx_one / d + fx_mul z2 (atanh_terms z2 k' (d + 2))
  end.

(** [ln (n/d)] for [1 <= n/d <= 2], as [2 atanh ((n-d)/(n+d))]. *)
Definition ln_fx (n d : Z) : Z :=
  let z := (n - d) * fx_one / (n + d) in
  2 * fx_mul z (atanh_terms (fx_mul z z) 45 1).

Definition ln2_fx : Z := ln_fx 2 1.

Definition ln10_fx : Z := 3 * ln2_fx + ln_fx 5 4.

Definition log10_ref (dt : dtype) (x : spec_float) : spec_float :=
  match x with
  | S754_nan => S754_nan
  | S754_infinity false => x
  | S754_infinity true => S754_nan
  | S754_zero _ => S754_infinity true
  | S754_finite true _ _ => S754_nan
  | S754_finite false m e =>
      let d := Zpos (digits2_pos m) - 1 in
      let ln_x := (e + d) * ln2_fx + ln_fx (Zpos m) (2 ^ d) in
      round_Q dt (Qmake ln_x (Z.to_pos ln10_fx))
  end.

Definition libm_ref : libm := mk_libm pow_ref log10_ref.

(** The number a float denotes, whatever its format: the representation
    with an odd significand.  Two floats, possibly of different dtypes,
    are the same number when their [number]s are equal. *)
Fixpoint strip (m : positive) (e : Z) : positive * Z :=
  match m with
  | xO p => strip p (e + 1)
  | _ => (m, e)
  end.

Definition number (x : spec_float) : spec_float :=
  match x with
  | S754_finite s m e => let '(m', e') := strip m e in S754_finite s m' e'
  | _ => x
  end.

(** Python floats by their decimal literals. *)
Definition pyfloat (q : Q) : spec_float := round_Q float64 q.

(** ** Example inputs

    A table of six sources with the dtypes of the archive columns
    ([bp_rp] and [phot_g_mean_mag] in single precision, the flux in
    double precision), and one source given as four Python scalars. *)

Definition ex_bp_rp : farray spec_float :=
  mk_farray float32 [6%nat]
    [round_Q float32 1.5; S754_nan; round_Q float32 0.8;
     round_Q float32 1.0; round_Q float32 1.2; round_Q float32 2.0].

Definition ex_aps : ndarray Z := mk_ndarray [6%nat] [95; 95; 31; 95; 95; 95].

Definition ex_mag : farray spec_float :=
  mk_farray float32 [6%nat]
    [round_Q float32 17.0; round_Q float32 15.0; round_Q float32 18.0;
     S754_nan; round_Q float32 14.5; round_Q float32 12.0].

Definition ex_flux : farray spec_float :=
  mk_farray float64 [6%nat]
    [pyfloat 1000.0; pyfloat 6000.0; pyfloat 400.0;
     pyfloat 250.0; pyfloat 9500.0; pyfloat 95000.0].


(** Two colour columns that differ only outside [0.25, 3.0], with the
    other three columns of a table of three sources. *)
Definition ex_clip_bp_rp : farray spec_float :=
  mk_farray float32 [3%nat]
    [round_Q float32 0.1; round_Q float32 3.5; round_Q float32 1.0].

Definition ex_clip_bp_rp' : farray spec_float :=
  mk_farray float32 [3%nat]
    [round_Q float32 0.2; S754_infinity false; round_Q float32 1.0].

Definition ex_clip_aps : ndarray Z := mk_ndarray [3%nat] [95; 95; 95].

Definition ex_clip_mag : farray spec_float :=
  mk_farray float32 [3%nat]
    [round_Q float32 17.0; round_Q float32 15.0; round_Q float32 18.0].

Definition ex_clip_flux : farray spec_float :=
  mk_farray float64 [3%nat] [pyfloat 1000.0; pyfloat 6000.0; pyfloat 400.0].

(** A table of two sources in double precision, as a 2 x 1 array. *)
Definition ex64_bp_rp : farray spec_float :=
  mk_farray float64 [2%nat; 1%nat] [pyfloat 1.5; pyfloat 1.2].

Definition ex64_aps : ndarray Z := mk_ndarray [2%nat; 1%nat] [95; 95].

Definition ex64_mag : farray spec_float :=
  mk_farray float64 [2%nat; 1%nat] [pyfloat 17.0; pyfloat 14.5].

Definition ex64_flux : farray spec_float :=
  mk_farray float64 [2%nat; 1%nat] [pyfloat 1000.0; pyfloat 9500.0].

(** One source with the dtypes of the archive columns, as arrays of one
    element. *)
Definition ex32_bp_rp : farray spec_float :=
  mk_farray float32 [1%nat] [round_Q float32 1.5].

Definition ex32_aps : ndarray Z := mk_ndarray [1%nat] [95].

Definition ex32_mag : farray spec_float :=
  mk_farray float32 [1%nat] [round_Q float32 17.0].

Definition ex32_flux : farray spec_float :=
  mk_farray float64 [1%nat] [pyfloat 1000.0].

(** The function and its correction factor with the reference library. *)
Definition correct_gband_ref :=
  @correct_gband spec_float (@numeric libm_ref).

Definition correction_factor_ref :=
  @correction_factor spec_float (@numeric libm_ref).
End IEEE.

(* ================================================================== *)
(** * 6. Exact arithmetic on the extended reals                        *)
(* ================================================================== *)

Module Ideal.
Local Open Scope R_scope.

Inductive xreal : Type :=
  | Nan
  | Infinity (negative : bool)
  | Real (r : R).

Definition is_nan (x : xreal) : bool :=
  match x with Nan => true | _ => false end.

Definition Rltb (a b : R) : bool := if Rlt_dec a b then true else false.
Definition Rleb (a b : R) : bool := if Rle_dec a b then true else false.
Definition Reqb (a b : R) : bool := if Req_dec_T a b then true else false.

Definition ltb (x y : xreal) : bool :=
  match x, y with
  | Nan, _ | _, Nan => false
  | Infinity sx, Infinity sy => sx && negb sy
  | Infinity sx, Real _ => sx
  | Real _, Infinity sy => negb sy
  | Real a, Real b => Rltb a b
  end.

Definition leb (x y : xreal) : bool :=
  match x, y with
  | Nan, _ | _, Nan => false
  | Infinity sx, Infinity sy => sx || negb sy
  | Infinity sx, Real _ => sx
  | Real _, Infinity sy => negb sy
  | Real a, Real b => Rleb a b
  end.

Definition opp (x : xreal) : xreal :=
  match x with
  | Nan => Nan
  | Infinity s => Infinity (negb s)
  | Real r => Real (- r)
  end.

Definition plus (x y : xreal) : xreal :=
  match x, y with
  | Nan, _ | _, Nan => Nan
  | Infinity sx, Infinity sy => if Bool.eqb sx sy then x else Nan
  | Infinity _, Real _ => x
  | Real _, Infinity _ => y
  | Real a, Real b => Real (a + b)
  end.

Definition minus (x y : xreal) : xreal := plus x (opp y).

(** The sign of an infinity times a finite number; [0 * inf] is NaN. *)
Definition scale_infinity (s : bool) (r : R) : xreal :=
  if Reqb r 0 then Nan else Infinity (xorb s (Rltb r 0)).

Definition mult (x y : xreal) : xreal :=
  match x, y with
  | Nan, _ | _, Nan => Nan
  | Infinity sx, Infinity sy => Infinity (xorb sx sy)
  | Infinity sx, Real r => scale_infinity sx r
  | Real r, Infinity sy => scale_infinity sy r
  | Real a, Real b => Real (a * b)
  end.

Definition pown (x : xreal) (k : positive) : xreal :=
  match x with
  | Nan => Nan
  | Infinity s => Infinity (s && Z.odd (Zpos k))
  | Real r => Real (r ^ Pos.to_nat k)
  end.

Definition log_10 (x : xreal) : xreal :=
  match x with
  | Nan => Nan
  | Infinity s => if s then Nan else x
  | Real r =>
      if Rltb 0 r then Real (ln r / ln 10)
      else if Reqb r 0 then Infinity true
      else Nan
  end.

#[export] Instance numeric : Numeric xreal := {|
  literal := fun q => Real (Q2R q);
  astype := fun _ x => x;
  isnan := is_nan;
  less := ltb;
  less_equal := leb;
  add := fun _ => plus;
  subtract := fun _ => minus;
  multiply := fun _ => mult;
  power := fun _ => pown;
  log10 := fun _ => log_10
|}.

(** The two cubic polynomials, on the real numbers. *)
Definition faint_cubic (x : R) : R :=
  1.00525 - 0.02323 * x + 0.01740 * x ^ 2 - 0.00253 * x ^ 3.


(** The source of the concrete scenario, and its correction factor. *)
Definition scenario : source xreal :=
  mk_source (Real 1.5) 95 (Real 17) (Real 1000).

Definition scenario_factor : R := 1.00101625.
End Ideal.

(* ================================================================== *)
(** * 7. The checks the notebook runs on the results                   *)
(* ================================================================== *)

Section Checks.
Context {F : Type} {N : Numeric F}.

(** [a[np.isnan(a)].size]: the number of nulls of a column. *)
Definition count_nan (a : farray F) : nat :=
  length (fdata (getitem a (np_isnan a))).

(** [a[i:j]] for a one-dimensional array and indices [0 <= i], [0 <= j]:
    the elements from position [i] up to, not including, position [j]. *)
Definition slice (i j : nat) (a : farray F) : farray F :=
  let l := firstn (j - i) (skipn i (fdata a)) in
  mk_farray (dtype_of a) [length l] l.

Definition slice_int (i j : nat) (a : ndarray Z) : ndarray Z :=
  let l := firstn (j - i) (skipn i (data a)) in
  mk_ndarray [length l] l.

(** [np.float(a[i])], [np.int(b[i])]: the element as a Python number;
    [None] when [i] is out of bounds (IndexError). *)
Definition float_item (i : nat) (a : farray F) : option (arg F (farray F)) :=
  option_map (fun x => Scalar (convert (dtype_of a) float64 x))
             (nth_error (fdata a) i).

Definition int_item (i : nat) (b : ndarray Z) : option (arg Z (ndarray Z)) :=
  option_map Scalar (nth_error (data b) i).




End Checks.

Module Notebook.
Import IEEE.

(** The loop of [np.divide] for a dtype. *)
Definition divide (dt : dtype) : spec_float -> spec_float -> spec_float :=
  SFdiv (prec dt) (emax dt).

(** [np.fmin], [np.fmax]: [(in1 <= in2 || isnan(in2)) ? in1 : in2] and
    [(in1 >= in2 || isnan(in2)) ? in1 : in2]; a NaN operand is ignored. *)
Definition fmin (x y : spec_float) : spec_float :=
  if SFleb x y || is_nan y then x else y.

Definition fmax (x y : spec_float) : spec_float :=
  if SFleb y x || is_nan y then x else y.

Definition zero_size (name : string) : exn :=
  ValueError ("zero-size array to reduction operation " ++ name
              ++ " which has no identity")%string.

(** [np.nanmin(a)], [np.nanmax(a)]: [np.fmin.reduce], [np.fmax.reduce]. *)
Definition nanmin (a : farray spec_float) : result spec_float :=
  match fdata a with
  | [] => Raise (zero_size "fmin")
  | x :: l => Ok (fold_left fmin l x)
  end.

Definition nanmax (a : farray spec_float) : result spec_float :=
  match fdata a with
  | [] => Raise (zero_size "fmax")
  | x :: l => Ok (fold_left fmax l x)
  end.

(** [deltag = gmag_corrected - phot_g_mean_mag] and
    [fratio = gflux_corrected / phot_g_mean_flux]. *)
Definition deltag {L : libm} (gm mag : farray spec_float) : farray spec_float :=
  ufunc2 subtract gm mag.

Definition fratio {L : libm} (gf flux : farray spec_float)
  : farray spec_float :=
  ufunc2 divide gf flux.

(** The two ranges the notebook prints: the least and the greatest
    [deltag], then the least and the greatest [fratio], over the sources
    for which no correction is expected. *)
Definition ranges {L : libm} (bp_rp : farray spec_float) (aps : ndarray Z)
           (mag flux : farray spec_float)
  : result ((spec_float * spec_float) * (spec_float * spec_float)) :=
  match correct_gband (Array bp_rp) (Array aps) (Array mag) (Array flux) with
  | Raise e => Raise e
  | Ok (gmag_corrected, gflux_corrected) =>
      let not_corrected := do_not_correct bp_rp aps mag in
      let dg := getitem (deltag gmag_corrected mag) not_corrected in
      let fr := getitem (fratio gflux_corrected flux) not_corrected in
      match nanmin dg, nanmax dg, nanmin fr, nanmax fr with
      | Ok dg_min, Ok dg_max, Ok fr_min, Ok fr_max =>
          Ok ((dg_min, dg_max), (fr_min, fr_max))
      | Raise e, _, _, _ | _, Raise e, _, _
      | _, _, Raise e, _ | _, _, _, Raise e => Raise e
      end
  end.

(** Zeros and finite nonzero numbers. *)
Definition is_finite (x : spec_float) : bool :=
  match x with
  | S754_zero _ | S754_finite _ _ _ => true
  | _ => false
  end.

Definition is_finite_nonzero (x : spec_float) : bool :=
  match x with S754_finite _ _ _ => true | _ => false end.
End Notebook.





(* ================================================================== *)
(** * 8. Properties                                                    *)
(* ================================================================== *)

Unset Implicit Arguments.

(** ** List lemmas: masks, selection and masked assignment over a table *)

Section ListLemmas.
Context {A B C D : Type}.

Lemma map2_map (f : B -> C -> D) (g : A -> B) (h : A -> C) (l : list A) :
  map2 f (map g l) (map h l) = map (fun x => f (g x) (h x)) l.
Proof.
  induction l as [| x l IH]; simpl; [reflexivity | now rewrite IH].
Qed.

Lemma compress_map (k : A -> bool) (g : A -> B) (l : list A) :
  compress (map k l) (map g l) = map g (filter k l).
Proof.
  induction l as [| x l IH]; simpl; [reflexivity |].
  destruct (k x); simpl; now rewrite IH.
Qed.

Lemma place_map (k : A -> bool) (b v : A -> B) (l : list A) :
  place (map b l) (map k l) (map v (filter k l))
  = map (fun x => if k x then v x else b x) l.
Proof.
  induction l as [| x l IH]; simpl; [reflexivity |].
  destruct (k x); simpl; now rewrite IH.
Qed.
End ListLemmas.

Lemma zip4_columns {F : Type} (cs : list F) (ps : list Z) (ms fs : list F) :
  length cs = length ps -> length ps = length ms -> length ms = length fs ->
  cs = map (@colour F) (zip4 cs ps ms fs)
  /\ ps = map (@params_solved F) (zip4 cs ps ms fs)
  /\ ms = map (@gmag F) (zip4 cs ps ms fs)
  /\ fs = map (@gflux F) (zip4 cs ps ms fs).
Proof.
  revert ps ms fs.
  induction cs as [| c cs IH]; intros [| p ps] [| m ms] [| f fs];
    simpl; intros H1 H2 H3; try discriminate; auto.
  injection H1 as H1. injection H2 as H2. injection H3 as H3.
  destruct (IH ps ms fs H1 H2 H3) as (E1 & E2 & E3 & E4).
  repeat split; f_equal; assumption.
Qed.

Lemma zip4_length {F : Type} (cs : list F) (ps : list Z) (ms fs : list F) :
  length cs = length ps -> length ps = length ms -> length ms = length fs ->
  length (zip4 cs ps ms fs) = length cs.
Proof.
  intros H1 H2 H3.
  destruct (zip4_columns cs ps ms fs H1 H2 H3) as (E & _).
  rewrite E at 2. now rewrite length_map.
Qed.

Lemma dtype_eqb_refl (d : dtype) : dtype_eqb d d = true.
Proof. now destruct d. Qed.

Lemma result_type_idem (d : dtype) : result_type d d = d.
Proof. now destruct d. Qed.

Section Semantics.
Context {F : Type} {N : Numeric F}.

Lemma convert_same (d : dtype) (x : F) : convert d d x = x.
Proof. unfold convert. now rewrite dtype_eqb_refl. Qed.

Lemma ufunc2_column op d sh sh' f g (rows : list (source F)) :
  ufunc2 op (column d sh f rows) (column d sh' g rows)
  = column d sh (fun r => op d (f r) (g r)) rows.
Proof.
  unfold ufunc2, column; simpl.
  rewrite result_type_idem, map2_map. f_equal.
  apply map_ext; intros r. now rewrite !convert_same.
Qed.

Lemma ufunc2_scalar_column op q d sh f (rows : list (source F)) :
  ufunc2_scalar op q (column d sh f rows)
  = column d sh (fun r => op d (pyscalar d q) (f r)) rows.
Proof. unfold ufunc2_scalar, column; simpl. now rewrite map_map. Qed.

Lemma np_power_column k d sh f (rows : list (source F)) :
  np_power (column d sh f rows) k
  = column d sh (fun r => power d (f r) k) rows.
Proof. unfold np_power, column; simpl. now rewrite map_map. Qed.

Lemma np_log10_column d sh f (rows : list (source F)) :
  np_log10 (column d sh f rows) = column d sh (fun r => log10 d (f r)) rows.
Proof. unfold np_log10, column; simpl. now rewrite map_map. Qed.

Lemma faint_polynomial_column d sh f (rows : list (source F)) :
  faint_polynomial (column d sh f rows)
  = column d sh (fun r => faint_polynomial1 d (f r)) rows.
Proof.
  unfold faint_polynomial.
  now rewrite !np_power_column, !ufunc2_scalar_column, !ufunc2_column.
Qed.

Lemma bright_polynomial_column d sh f (rows : list (source F)) :
  bright_polynomial (column d sh f rows)
  = column d sh (fun r => bright_polynomial1 d (f r)) rows.
Proof.
  unfold bright_polynomial.
  now rewrite !np_power_column, !ufunc2_scalar_column, !ufunc2_column.
Qed.

(** Selection by a mask that is itself a column of the table. *)
Lemma getitem_column d sh sh' f (k : source F -> bool) rows :
  getitem (column d sh f rows) (mk_ndarray sh' (map k rows))
  = column d [length (filter k rows)] f (filter k rows).
Proof.
  unfold getitem, column; simpl.
  now rewrite compress_map, length_map.
Qed.

Lemma setitem_column d d' sh sh' sh'' b v (k : source F -> bool) rows :
  setitem (column d sh b rows) (mk_ndarray sh' (map k rows))
          (column d' sh'' v (filter k rows))
  = column d sh (fun r => if k r then convert d' d (v r) else b r) rows.
Proof.
  unfold setitem, column; simpl.
  now rewrite map_map, (place_map k b (fun r => convert d' d (v r))).
Qed.

(** The three masks, as columns. *)
Lemma do_not_correct_column dc dm sh rows :
  do_not_correct (column dc sh (@colour F) rows)
                 (mk_ndarray sh (map (@params_solved F) rows))
                 (column dm sh (@gmag F) rows)
  = mk_ndarray sh (map (do_not_correct1 dm) rows).
Proof.
  unfold do_not_correct, bor, np_isnan, le_scalar, ne_scalar, column; simpl.
  now rewrite !map_map, !map2_map.
Qed.

Lemma bright_correct_column dm sh (k : source F -> bool) rows :
  bright_correct (mk_ndarray sh (map k rows)) (column dm sh (@gmag F) rows)
  = mk_ndarray sh
      (map (fun r => negb (k r) && less (pyscalar dm 13) (gmag r)
                     && less_equal (gmag r) (pyscalar dm 16)) rows).
Proof.
  unfold bright_correct, band, np_logical_not, gt_scalar, le_scalar, column.
  simpl. now rewrite !map_map, !map2_map.
Qed.

Lemma faint_correct_column dm sh (k : source F -> bool) rows :
  faint_correct (mk_ndarray sh (map k rows)) (column dm sh (@gmag F) rows)
  = mk_ndarray sh
      (map (fun r => negb (k r) && less (pyscalar dm 16) (gmag r)) rows).
Proof.
  unfold faint_correct, band, np_logical_not, gt_scalar, column.
  simpl. now rewrite !map_map, !map2_map.
Qed.

(** The correction factor of a table is computed row by row. *)
Lemma correction_factor_column dc dm sh rows :
  correction_factor (column dc sh (@colour F) rows)
                    (mk_ndarray sh (map (@params_solved F) rows))
                    (column dm sh (@gmag F) rows)
  = column dm sh (correction_factor1 dc dm) rows.
Proof.
  unfold correction_factor.
  rewrite do_not_correct_column, bright_correct_column, faint_correct_column.
  replace (np_clip (column dc sh (@colour F) rows) 0.25 3.0)
    with (column dc sh (clipped_colour dc) rows)
    by (unfold np_clip, column, clipped_colour; simpl; now rewrite map_map).
  replace (np_ones_like (column dm sh (@gmag F) rows))
    with (column dm sh (fun _ => pyscalar dm 1) rows)
    by (unfold np_ones_like, column; simpl; now rewrite map_map).
  rewrite !getitem_column, faint_polynomial_column, bright_polynomial_column.
  rewrite !setitem_column.
  reflexivity.
Qed.

Lemma gmag_corrected_column dm sh cf rows :
  gmag_corrected (column dm sh (@gmag F) rows) (column dm sh cf rows)
  = column dm sh
      (fun r => subtract dm (gmag r)
                  (multiply dm (pyscalar dm 2.5) (log10 dm (cf r)))) rows.
Proof.
  unfold gmag_corrected.
  now rewrite np_log10_column, ufunc2_scalar_column, ufunc2_column.
Qed.

Lemma gflux_corrected_column df dm sh cf rows :
  gflux_corrected (column df sh (@gflux F) rows) (column dm sh cf rows)
  = column (result_type df dm) sh
      (fun r => multiply (result_type df dm)
                  (convert df (result_type df dm) (gflux r))
                  (convert dm (result_type df dm) (cf r))) rows.
Proof.
  unfold gflux_corrected, ufunc2, column; simpl. now rewrite map2_map.
Qed.

(** Arrays of one shape are the columns of the table of their rows. *)
Lemma arrays_as_columns (a : farray F) (b : ndarray Z) (c d : farray F) :
  well_formed a -> well_formed_int b -> well_formed c -> well_formed d ->
  same_shape a b c d = true ->
  let rows := sources a b c d in
  a = column (dtype_of a) (fshape c) (@colour F) rows
  /\ b = mk_ndarray (fshape c) (map (@params_solved F) rows)
  /\ c = column (dtype_of c) (fshape c) (@gmag F) rows
  /\ d = column (dtype_of d) (fshape c) (@gflux F) rows
  /\ length rows = size (fshape c).
Proof.
  destruct a as [da sa la], b as [sb lb], c as [dc sc lc], d as [dd sd ld].
  unfold well_formed, well_formed_int, same_shape, shape_eqb, sources; simpl.
  intros Wa Wb Wc Wd Hs.
  repeat match type of Hs with
         | context [list_eq_dec ?p ?x ?y] =>
             destruct (list_eq_dec p x y); try discriminate
         end.
  subst sb sc sd.
  assert (H1 : length la = length lb) by congruence.
  assert (H2 : length lb = length lc) by congruence.
  assert (H3 : length lc = length ld) by congruence.
  destruct (zip4_columns la lb lc ld H1 H2 H3) as (Ea & Eb & Ec & Ed).
  pose proof (zip4_length la lb lc ld H1 H2 H3) as Hlen.
  unfold column. repeat split; try congruence.
Qed.

(** On arrays of one shape the masks and the three results are computed
    row by row. *)
Theorem arrays_semantics (a : farray F) (b : ndarray Z) (c d : farray F) :
  well_formed a -> well_formed_int b -> well_formed c -> well_formed d ->
  same_shape a b c d = true ->
  let rows := sources a b c d in
  let dnc := do_not_correct a b c in
  (dnc = mk_ndarray (fshape c) (map (do_not_correct1 (dtype_of c)) rows)
   /\ bright_correct dnc c
      = mk_ndarray (fshape c) (map (bright_correct1 (dtype_of c)) rows)
   /\ faint_correct dnc c
      = mk_ndarray (fshape c) (map (faint_correct1 (dtype_of c)) rows))
  /\ correction_factor a b c
     = column (dtype_of c) (fshape c)
              (correction_factor1 (dtype_of a) (dtype_of c)) rows
  /\ gmag_corrected c (correction_factor a b c)
     = column (dtype_of c) (fshape c)
              (gmag_corrected1 (dtype_of a) (dtype_of c)) rows
  /\ gflux_corrected d (correction_factor a b c)
     = column (result_type (dtype_of d) (dtype_of c)) (fshape c)
              (gflux_corrected1 (dtype_of a) (dtype_of c) (dtype_of d)) rows
  /\ length rows = size (fshape c).
Proof.
  intros Wa Wb Wc Wd Hs.
  destruct (arrays_as_columns a b c d Wa Wb Wc Wd Hs)
    as (Ea & Eb & Ec & Ed & Hlen).
  cbv zeta in *.
  remember (sources a b c d) as rows eqn:Hr.
  remember (fshape c) as sh eqn:Hsh.
  remember (dtype_of a) as da eqn:Hda.
  remember (dtype_of c) as dm eqn:Hdm.
  remember (dtype_of d) as dd eqn:Hdd.
  clear Hr Hsh Hda Hdm Hdd Wa Wb Wc Wd Hs. subst a b c d.
  rewrite do_not_correct_column, correction_factor_column.
  rewrite bright_correct_column, faint_correct_column.
  rewrite gmag_corrected_column, gflux_corrected_column.
  repeat split; assumption.
Qed.

Lemma normalize_well_formed bp aps mag flux a b c d :
  well_formed_args bp aps mag flux ->
  normalize bp aps mag flux = (a, b, c, d) ->
  well_formed a /\ well_formed_int b /\ well_formed c /\ well_formed d.
Proof.
  unfold well_formed_args, normalize, well_formed, well_formed_int.
  intros (W1 & W2 & W3 & W4) E.
  destruct bp, aps, mag, flux; simpl in E; injection E as <- <- <- <-;
    simpl; rewrite ?length_map; auto.
Qed.

(** With matching shapes the call returns, and its results are the
    row-by-row results over the table of the normalized arguments. *)
Theorem correct_gband_returns bp aps mag flux a b c d :
  well_formed_args bp aps mag flux ->
  normalize bp aps mag flux = (a, b, c, d) ->
  same_shape a b c d = true ->
  let rows := sources a b c d in
  correct_gband bp aps mag flux
  = Ok (column (dtype_of c) (fshape c)
               (gmag_corrected1 (dtype_of a) (dtype_of c)) rows,
        column (result_type (dtype_of d) (dtype_of c)) (fshape c)
               (gflux_corrected1 (dtype_of a) (dtype_of c) (dtype_of d))
               rows).
Proof.
  intros W E Hs rows.
  destruct (normalize_well_formed _ _ _ _ _ _ _ _ W E) as (Wa & Wb & Wc & Wd).
  destruct (arrays_semantics _ _ _ _ Wa Wb Wc Wd Hs) as (_ & _ & Eg & Ef & _).
  unfold correct_gband. rewrite E, Hs. cbn [negb].
  fold rows in Eg, Ef. now rewrite Eg, Ef.
Qed.

Theorem correct_gband_raises bp aps mag flux a b c d :
  normalize bp aps mag flux = (a, b, c, d) ->
  same_shape a b c d = false ->
  correct_gband bp aps mag flux = Raise shape_mismatch.
Proof.
  intros E Hs. unfold correct_gband. now rewrite E, Hs.
Qed.

(** The form in which the properties below use the theorems above: an
    accepted call returns, and the masks, the correction factor and the two
    results are columns over the table of its sources. *)
Lemma accepted_returns bp aps mag flux a b c d :
  accepted bp aps mag flux a b c d ->
  let rows := sources a b c d in
  let dm := dtype_of c in
  let dnc := do_not_correct a b c in
  correct_gband bp aps mag flux
  = Ok (column dm (fshape c) (gmag_corrected1 (dtype_of a) dm) rows,
        column (result_type (dtype_of d) dm) (fshape c)
               (gflux_corrected1 (dtype_of a) dm (dtype_of d)) rows)
  /\ correction_factor a b c
     = column dm (fshape c) (correction_factor1 (dtype_of a) dm) rows
  /\ dnc = mk_ndarray (fshape c) (map (do_not_correct1 dm) rows)
  /\ bright_correct dnc c = mk_ndarray (fshape c) (map (bright_correct1 dm) rows)
  /\ faint_correct dnc c = mk_ndarray (fshape c) (map (faint_correct1 dm) rows).
Proof.
  intros (W & E & Hs) rows dm dnc.
  destruct (normalize_well_formed _ _ _ _ _ _ _ _ W E) as (Wa & Wb & Wc & Wd).
  destruct (arrays_semantics _ _ _ _ Wa Wb Wc Wd Hs)
    as ((M1 & M2 & M3) & Hcf & _).
  repeat split; try assumption.
  exact (correct_gband_returns _ _ _ _ _ _ _ _ W E Hs).
Qed.

Lemma shape_eqb_eq s t : shape_eqb s t = true -> s = t.
Proof. unfold shape_eqb. now destruct (list_eq_dec Nat.eq_dec s t). Qed.

Lemma shape_eqb_refl s : shape_eqb s s = true.
Proof. unfold shape_eqb. now destruct (list_eq_dec Nat.eq_dec s s). Qed.

Lemma same_shape_eq (a : farray F) (b : ndarray Z) (c d : farray F) :
  same_shape a b c d = true ->
  fshape a = fshape c /\ shape b = fshape c /\ fshape d = fshape c.
Proof.
  unfold same_shape. intros H.
  apply andb_true_iff in H. destruct H as [H H3].
  apply andb_true_iff in H. destruct H as [H1 H2].
  apply shape_eqb_eq in H1, H2, H3. repeat split; congruence.
Qed.

Lemma accepted_size bp aps mag flux a b c d :
  accepted bp aps mag flux a b c d ->
  length (sources a b c d) = size (fshape c).
Proof.
  intros (W & E & Hs).
  destruct (normalize_well_formed _ _ _ _ _ _ _ _ W E) as (Wa & Wb & Wc & Wd).
  exact (proj2 (proj2 (proj2 (proj2
           (arrays_as_columns _ _ _ _ Wa Wb Wc Wd Hs))))).
Qed.

Lemma map_Forall2_eq {A B : Type} (f g : A -> B) (l l' : list A) :
  Forall2 (fun x y => f x = g y) l l' -> map f l = map g l'.
Proof. induction 1; simpl; congruence. Qed.

(** Changing the colour column changes the colour of each row only. *)
Lemma sources_Forall2 (R : F -> F -> Prop) la la' lb lc ld :
  Forall2 R la la' ->
  Forall2 (fun s s' => R (colour s) (colour s')
                       /\ params_solved s = params_solved s'
                       /\ gmag s = gmag s' /\ gflux s = gflux s')
          (zip4 la lb lc ld) (zip4 la' lb lc ld).
Proof.
  intros H. revert lb lc ld.
  induction H as [| x y la la' Hxy H IH]; intros lb lc ld; simpl.
  - constructor.
  - destruct lb, lc, ld; try constructor; simpl; auto.
Qed.

Lemma nth_error_mask sh (k : source F -> bool) rows i s :
  nth_error rows i = Some s ->
  nth_error (data (mk_ndarray sh (map k rows))) i = Some (k s).
Proof. intros H. simpl. now apply map_nth_error. Qed.

Lemma nth_error_column dt sh (f : source F -> F) rows i s :
  nth_error rows i = Some s ->
  nth_error (fdata (column dt sh f rows)) i = Some (f s).
Proof. intros H. unfold column; simpl. now apply map_nth_error. Qed.

(** ** Validation of the shapes *)

Lemma normalize_shapes bp aps mag flux a b c d :
  normalize bp aps mag flux = (a, b, c, d) ->
  fshape a = arg_shape bp /\ shape b = arg_shape_int aps
  /\ fshape c = arg_shape mag /\ fshape d = arg_shape flux.
Proof.
  unfold normalize. intros E.
  destruct bp, aps, mag, flux; simpl in E; injection E as <- <- <- <-;
    repeat split.
Qed.

Lemma same_shape_iff (a : farray F) (b : ndarray Z) (c d : farray F) :
  same_shape a b c d = true
  <-> fshape a = shape b /\ shape b = fshape c /\ fshape c = fshape d.
Proof.
  unfold same_shape. rewrite !andb_true_iff. split.
  - intros [[H1 H2] H3]. auto using shape_eqb_eq.
  - intros (-> & -> & ->). now rewrite !shape_eqb_refl.
Qed.


(** ** Scalars and vectors *)

Lemma accepted_arrays (a : farray F) (b : ndarray Z) (c d : farray F) :
  well_formed a -> well_formed_int b -> well_formed c -> well_formed d ->
  same_shape a b c d = true ->
  accepted (Array a) (Array b) (Array c) (Array d) a b c d.
Proof. intros; repeat split; assumption. Qed.

Lemma accepted_scalars (x : F) (p : Z) (m f : F) :
  accepted (Scalar x) (Scalar p) (Scalar m) (Scalar f)
           (mk_farray float64 [] [x]) (mk_ndarray [] [p])
           (mk_farray float64 [] [m]) (mk_farray float64 [] [f]).
Proof. repeat split. Qed.

(** C7, amended (scalars and vectors).  For four arrays of one shape whose
    colours, magnitudes and fluxes are of dtype float64, the call on the
    arrays returns at each index the pair of values that the call on the
    four scalars at that index returns. *)
Theorem scalar_vector_equivalence (a : farray F) (b : ndarray Z)
        (c d : farray F) :
  well_formed a -> well_formed_int b -> well_formed c -> well_formed d ->
  same_shape a b c d = true ->
  dtype_of a = float64 -> dtype_of c = float64 -> dtype_of d = float64 ->
  exists gm gf,
    correct_gband (Array a) (Array b) (Array c) (Array d) = Ok (gm, gf)
    /\ forall i s,
        nth_error (sources a b c d) i = Some s ->
        exists g f,
          nth_error (fdata gm) i = Some g
          /\ nth_error (fdata gf) i = Some f
          /\ correct_gband (Scalar (colour s)) (Scalar (params_solved s))
                           (Scalar (gmag s)) (Scalar (gflux s))
             = Ok (mk_farray float64 [] [g], mk_farray float64 [] [f]).
Proof.
  intros Wa Wb Wc Wd Hs Da Dc Dd.
  destruct (accepted_returns _ _ _ _ _ _ _ _
              (accepted_arrays a b c d Wa Wb Wc Wd Hs)) as (E & _).
  eexists _, _. split; [exact E |].
  intros i s Hi. eexists _, _.
  rewrite !(nth_error_column _ _ _ _ _ _ Hi).
  do 2 (split; [reflexivity |]).
  destruct (accepted_returns _ _ _ _ _ _ _ _
              (accepted_scalars (colour s) (params_solved s) (gmag s)
                                (gflux s))) as (Es & _).
  rewrite Es, Da, Dc, Dd. now destruct s.
Qed.
End Semantics.

(** ** Facts of IEEE 754 arithmetic *)

Section IEEE_facts.
Import IEEE.
Local Open Scope Z_scope.

Lemma bounded_inv dt m e :
  SpecFloat.bounded (prec dt) (emax dt) m e = true ->
  fexp (prec dt) (emax dt) (Zpos (digits2_pos m) + e) = e
  /\ e <= emax dt - prec dt.
Proof.
  unfold SpecFloat.bounded, canonical_mantissa. intros H.
  apply andb_true_iff in H. destruct H as [H1 H2].
  apply Z.eqb_eq in H1. apply Z.leb_le in H2. auto.
Qed.

(** Rounding a canonical significand changes nothing. *)
Lemma binary_round_aux_canonical dt s m e :
  SpecFloat.bounded (prec dt) (emax dt) m e = true ->
  binary_round_aux (prec dt) (emax dt) s (Zpos m) e loc_Exact
  = S754_finite s m e.
Proof.
  intros H. destruct (bounded_inv _ _ _ H) as [Hc Hb].
  unfold binary_round_aux, shr_fexp. cbn [Zdigits2 shr_record_of_loc].
  rewrite Hc, Z.sub_diag.
  cbn [shr shr_m loc_of_shr_record round_nearest_even Zdigits2
       shr_record_of_loc].
  rewrite Hc, Z.sub_diag. cbn [shr shr_m].
  apply Z.leb_le in Hb. now rewrite Hb.
Qed.

Lemma cast_valid dt x : valid dt x = true -> cast dt x = x.
Proof.
  destruct x as [s | s | | s m e]; try reflexivity.
  cbn [valid valid_binary cast]. intros H.
  destruct (bounded_inv _ _ _ H) as [Hc _].
  unfold binary_round, shl_align. rewrite Hc, Z.sub_diag.
  now apply binary_round_aux_canonical.
Qed.

Ltac mul_one_case m e Hc Hb k nk :=
  unfold binary_round_aux, shr_fexp;
  rewrite !Pos.mul_xO_r, Pos.mul_1_r;
  cbn [Zdigits2 digits2_pos shr_record_of_loc];
  rewrite <- !Pos.add_1_r, !Pos2Z.inj_add;
  match goal with
  | |- context [fexp _ _ (?a + (e + nk))] =>
      replace (a + (e + nk)) with (Z.pos (digits2_pos m) + e) by lia
  end;
  rewrite Hc;
  replace (e - (e + nk)) with k by lia;
  cbn [shr SpecFloat.iter_pos shr_1 shr_m loc_of_shr_record round_nearest_even orb];
  replace (e + nk + k) with e by lia;
  cbn [Zdigits2 shr_record_of_loc]; rewrite Hc, Z.sub_diag; cbn [shr shr_m];
  apply Z.leb_le in Hb; rewrite Hb; reflexivity.

(** [x * 1.0] is [x], bit for bit. *)
Lemma SFmul_one_r dt x :
  valid dt x = true -> SFmul (prec dt) (emax dt) x (one dt) = x.
Proof.
  destruct x as [s | s | | s m e]; intros Hv.
  - destruct dt, s; reflexivity.
  - destruct dt, s; reflexivity.
  - destruct dt; reflexivity.
  - cbn [valid valid_binary] in Hv.
    destruct (bounded_inv _ _ _ Hv) as [Hc Hb].
    destruct dt; cbn [one SFmul]; rewrite xorb_false_r.
    + mul_one_case m e Hc Hb 23 (-23).
    + mul_one_case m e Hc Hb 52 (-52).
Qed.

(** [x - 0.0] is [x], and a finite number times [+0.0] is a zero. *)
Lemma SFsub_zero_r dt x : SFsub (prec dt) (emax dt) x zero = x.
Proof. destruct x as [[|] | [|] | | s m e]; reflexivity. Qed.

Lemma digits2_pos_iter_xO m d :
  digits2_pos (Pos.iter xO m d) = (digits2_pos m + d)%positive.
Proof.
  induction d as [| d IH] using Pos.peano_ind.
  - cbn. now rewrite Pos.add_1_r.
  - rewrite Pos.iter_succ. cbn [digits2_pos]. rewrite IH. lia.
Qed.

Lemma strip_iter_xO m e d :
  strip (Pos.iter xO m d) (e - Zpos d) = strip m e.
Proof.
  revert e. induction d as [| d IH] using Pos.peano_ind; intros e.
  - cbn. f_equal. lia.
  - rewrite Pos.iter_succ. cbn [strip].
    replace (e - Z.pos (Pos.succ d) + 1) with (e - Z.pos d) by lia.
    apply IH.
Qed.

(** binary32 to binary64: the significand is shifted, nothing is lost. *)
Lemma cast_widen s m e :
  SpecFloat.bounded (prec float32) (emax float32) m e = true ->
  exists d,
    cast float64 (S754_finite s m e)
    = S754_finite s (Pos.iter xO m d) (e - Zpos d)
    /\ SpecFloat.bounded (prec float64) (emax float64) (Pos.iter xO m d) (e - Zpos d)
       = true.
Proof.
  intros H. destruct (bounded_inv float32 _ _ H) as [Hc Hb].
  cbn [prec emax] in Hc, Hb. unfold fexp, emin in Hc.
  assert (Hd : Zpos (digits2_pos m) <= 24 /\ -149 <= e) by lia.
  cbn [cast prec emax]. unfold binary_round, shl_align.
  assert (Hf : fexp 53 1024 (Zpos (digits2_pos m) + e)
               = Zpos (digits2_pos m) + e - 53)
    by (unfold fexp, emin; lia).
  rewrite Hf.
  destruct (Zpos (digits2_pos m) + e - 53 - e) as [| p | d] eqn:Ed; try lia.
  exists d.
  assert (Hb' : SpecFloat.bounded (prec float64) (emax float64)
                        (Pos.iter xO m d) (e - Zpos d) = true).
  { unfold SpecFloat.bounded, canonical_mantissa.
    rewrite digits2_pos_iter_xO. cbn [prec emax]. unfold fexp, emin.
    apply andb_true_iff; split; [apply Z.eqb_eq | apply Z.leb_le]; lia. }
  replace (Zpos (digits2_pos m) + e - 53) with (e - Zpos d) by lia.
  split; [| exact Hb'].
  exact (binary_round_aux_canonical float64 s _ _ Hb').
Qed.

Lemma valid_cast_widen x :
  valid float32 x = true -> valid float64 (cast float64 x) = true.
Proof.
  destruct x as [s | s | | s m e]; try reflexivity.
  cbn [valid valid_binary]. intros H.
  destruct (cast_widen s _ _ H) as (d & E & Hb). now rewrite E.
Qed.

Lemma number_cast_widen x :
  valid float32 x = true -> number (cast float64 x) = number x.
Proof.
  destruct x as [s | s | | s m e]; try reflexivity.
  cbn [valid valid_binary]. intros H.
  destruct (cast_widen s _ _ H) as (d & E & _). rewrite E.
  cbn [number]. now rewrite strip_iter_xO.
Qed.

(** ** Comparisons *)

Lemma SFcompare_swap (x y : spec_float) :
  SFcompare y x = option_map CompOpp (SFcompare x y).
Proof.
  destruct x as [sx | sx | | sx mx ex], y as [sy | sy | | sy my ey];
    try destruct sx; try destruct sy; try reflexivity;
    cbn [SFcompare option_map]; rewrite (Z.compare_antisym ey ex);
    change (Pos.compare_cont Eq my mx) with (Pos.compare my mx);
    change (Pos.compare_cont Eq mx my) with (Pos.compare mx my);
    rewrite (Pos.compare_antisym mx my);
    destruct (ey ?= ex), (mx ?= my)%positive; reflexivity.
Qed.

Lemma SFltb_SFleb_false x y : SFltb x y = true -> SFleb y x = false.
Proof.
  unfold SFltb, SFleb. rewrite (SFcompare_swap x y).
  destruct (SFcompare x y) as [[| |]|]; cbn; congruence.
Qed.

Lemma SFleb_SFltb_false x y : SFleb x y = true -> SFltb y x = false.
Proof.
  unfold SFltb, SFleb. rewrite (SFcompare_swap x y).
  destruct (SFcompare x y) as [[| |]|]; cbn; congruence.
Qed.

Lemma SFltb_not_nan x y :
  SFltb x y = true -> is_nan x = false /\ is_nan y = false.
Proof. unfold SFltb. destruct x, y; cbn; try discriminate; auto. Qed.

Lemma SFleb_not_nan x y :
  SFleb x y = true -> is_nan x = false /\ is_nan y = false.
Proof. unfold SFleb. destruct x, y; cbn; try discriminate; auto. Qed.

(** Between two numbers, [x <= y] is the negation of [y < x]. *)
Lemma SFleb_negb_SFltb x y :
  is_nan x = false -> is_nan y = false -> SFleb x y = negb (SFltb y x).
Proof.
  unfold SFltb, SFleb. rewrite (SFcompare_swap x y). intros Hx Hy.
  destruct x, y; try discriminate;
    destruct (SFcompare _ _) as [[| |]|] eqn:E; cbn; try reflexivity;
    cbn in E; try discriminate;
    repeat match type of E with
           | context [if ?b then _ else _] => destruct b
           end;
    discriminate.
Qed.

Ltac cmp_cases :=
  repeat match goal with
         | |- context [Z.compare ?a ?b] => destruct (Z.compare_spec a b)
         | H : context [Z.compare ?a ?b] |- _ =>
             destruct (Z.compare_spec a b)
         | |- context [Pos.compare_cont Eq ?a ?b] =>
             change (Pos.compare_cont Eq a b) with (Pos.compare a b);
             destruct (Pos.compare_spec a b)
         | H : context [Pos.compare_cont Eq ?a ?b] |- _ =>
             change (Pos.compare_cont Eq a b) with (Pos.compare a b) in H;
             destruct (Pos.compare_spec a b)
         end.

Lemma SFltb_SFleb_trans x y z :
  SFltb x y = true -> SFleb y z = true -> SFltb x z = true.
Proof.
  unfold SFltb, SFleb.
  destruct x as [sx | sx | | sx mx ex], y as [sy | sy | | sy my ey],
           z as [sz | sz | | sz mz ez];
    try destruct sx; try destruct sy; try destruct sz;
    cbn [SFcompare CompOpp]; try discriminate; try reflexivity;
    cmp_cases; cbn [CompOpp]; try discriminate; try reflexivity; try lia.
Qed.

Lemma SFltb_SFleb x y : SFltb x y = true -> SFleb x y = true.
Proof.
  unfold SFltb, SFleb. destruct (SFcompare x y) as [[| |]|]; congruence.
Qed.
End IEEE_facts.

(** ** Properties of the function under IEEE 754 arithmetic *)

Section IEEE_claims.
Import IEEE.
Context {L : libm}.

Lemma pyscalar_one dt : pyscalar dt 1 = one dt.
Proof. destruct dt; reflexivity. Qed.

Lemma convert_one dm dt :
  convert dm (result_type dt dm) (one dm) = one (result_type dt dm).
Proof. destruct dm, dt; reflexivity. Qed.

Lemma valid_convert df dm f :
  valid df f = true ->
  valid (result_type df dm) (convert df (result_type df dm) f) = true.
Proof.
  intros H. destruct df, dm; cbn; auto. now apply valid_cast_widen.
Qed.

Lemma number_convert df dm f :
  valid df f = true ->
  number (convert df (result_type df dm) f) = number f.
Proof.
  intros H. destruct df, dm; cbn; auto. now apply number_cast_widen.
Qed.

(** A source outside both regimes keeps the initial factor 1.0. *)
Lemma factor_outside_regimes dc dm (s : source spec_float) :
  bright_correct1 dm s = false -> faint_correct1 dm s = false ->
  correction_factor1 dc dm s = one dm.
Proof.
  intros Hb Hf. unfold correction_factor1. rewrite Hb, Hf.
  apply pyscalar_one.
Qed.

Lemma excluded_outside_regimes dm (s : source spec_float) :
  do_not_correct1 dm s = true ->
  bright_correct1 dm s = false /\ faint_correct1 dm s = false.
Proof.
  intros H. unfold bright_correct1, faint_correct1. now rewrite H.
Qed.

(** With factor 1.0 the magnitude is returned as it is. *)
Lemma gmag_unchanged dc dm (s : source spec_float) :
  log10_one L ->
  correction_factor1 dc dm s = one dm ->
  gmag_corrected1 dc dm s = gmag s.
Proof.
  intros HL Hcf. unfold gmag_corrected1. rewrite Hcf.
  cbn [log10 multiply subtract numeric]. rewrite HL.
  replace (SFmul (prec dm) (emax dm) (pyscalar dm 2.5) zero) with zero
    by (destruct dm; reflexivity).
  apply SFsub_zero_r.
Qed.

(** With factor 1.0 the flux is returned as it is, converted to the
    dtype of the result when that is wider. *)
Lemma gflux_unchanged dc dm df (s : source spec_float) :
  valid df (gflux s) = true ->
  correction_factor1 dc dm s = one dm ->
  gflux_corrected1 dc dm df s = convert df (result_type df dm) (gflux s).
Proof.
  intros Hv Hcf. unfold gflux_corrected1. rewrite Hcf, convert_one.
  cbn [multiply numeric]. apply SFmul_one_r. now apply valid_convert.
Qed.

(** C1 (identity on exclusion).  In a call that passes the shape check,
    every source whose solution code is not 95, or whose magnitude is
    [<= 13], or whose colour is NaN gets the correction factor 1.0; its
    corrected magnitude is its magnitude, and its corrected flux is its
    flux: the same number, and the same float when the result has the
    dtype of the flux array. *)
Theorem identity_on_exclusion bp aps mag flux a b c d :
  log10_one L ->
  accepted bp aps mag flux a b c d ->
  exists gm gf,
    correct_gband bp aps mag flux = Ok (gm, gf)
    /\ forall i s,
        nth_error (sources a b c d) i = Some s ->
        valid (dtype_of d) (gflux s) = true ->
        params_solved s <> 95%Z
        \/ less_equal (gmag s) (pyscalar (dtype_of c) 13) = true
        \/ isnan (colour s) = true ->
        nth_error (fdata (correction_factor a b c)) i
        = Some (one (dtype_of c))
        /\ nth_error (fdata gm) i = Some (gmag s)
        /\ exists f,
            nth_error (fdata gf) i = Some f
            /\ number f = number (gflux s)
            /\ (dtype_of d = float64 \/ dtype_of c = float32 ->
                f = gflux s).
Proof.
  intros HL Hacc. destruct (accepted_returns _ _ _ _ _ _ _ _ Hacc) as (E & Ecf & _).
  eexists _, _. split; [exact E |].
  intros i s Hi Hv Hex.
  assert (Hdnc : do_not_correct1 (dtype_of c) s = true).
  { unfold do_not_correct1. destruct Hex as [Hp | [Hm | Hc]].
    - apply Z.eqb_neq in Hp. rewrite Hp. cbn [negb]. apply orb_true_r.
    - rewrite Hm. now rewrite orb_true_r.
    - now rewrite Hc. }
  destruct (excluded_outside_regimes _ _ Hdnc) as [Hb Hf].
  pose proof (factor_outside_regimes (dtype_of a) _ _ Hb Hf) as Hcf.
  rewrite Ecf. repeat split.
  - rewrite (nth_error_column _ _ _ _ _ _ Hi). now rewrite Hcf.
  - rewrite (nth_error_column _ _ _ _ _ _ Hi). f_equal.
    now apply gmag_unchanged.
  - eexists. split; [apply (nth_error_column _ _ _ _ _ _ Hi) |].
    rewrite (gflux_unchanged _ _ _ _ Hv Hcf). split.
    + now apply number_convert.
    + intros Hd.
      replace (result_type (dtype_of d) (dtype_of c)) with (dtype_of d)
        by (destruct Hd as [-> | ->]; now destruct (dtype_of d)).
      apply convert_same.
Qed.
(** Comparisons with a NaN are false. *)
Lemma SFltb_nan_r x : SFltb x S754_nan = false.
Proof. now destruct x. Qed.

Lemma SFleb_nan_l y : SFleb S754_nan y = false.
Proof. reflexivity. Qed.

Lemma is_nan_eq x : is_nan x = true -> x = S754_nan.
Proof. now destruct x. Qed.

Lemma nan_outside_regimes dm (s : source spec_float) :
  isnan (gmag s) = true ->
  bright_correct1 dm s = false /\ faint_correct1 dm s = false.
Proof.
  intros H. apply is_nan_eq in H.
  unfold bright_correct1, faint_correct1. rewrite H.
  cbn [less numeric]. rewrite !SFltb_nan_r.
  now rewrite !andb_false_r.
Qed.

(** C5 (NaN magnitude).  In a call that passes the shape check, a source
    whose magnitude is NaN, whatever its colour, solution code and flux,
    gets the correction factor 1.0; its corrected magnitude is NaN and its
    corrected flux is its flux. *)
Theorem nan_magnitude_propagates bp aps mag flux a b c d :
  accepted bp aps mag flux a b c d ->
  exists gm gf,
    correct_gband bp aps mag flux = Ok (gm, gf)
    /\ forall i s,
        nth_error (sources a b c d) i = Some s ->
        valid (dtype_of d) (gflux s) = true ->
        isnan (gmag s) = true ->
        nth_error (fdata (correction_factor a b c)) i
        = Some (one (dtype_of c))
        /\ nth_error (fdata gm) i = Some S754_nan
        /\ exists f,
            nth_error (fdata gf) i = Some f
            /\ number f = number (gflux s)
            /\ (dtype_of d = float64 \/ dtype_of c = float32 ->
                f = gflux s).
Proof.
  intros Hacc. destruct (accepted_returns _ _ _ _ _ _ _ _ Hacc) as (E & Ecf & _).
  eexists _, _. split; [exact E |].
  intros i s Hi Hv Hnan.
  destruct (nan_outside_regimes (dtype_of c) _ Hnan) as [Hb Hf].
  pose proof (factor_outside_regimes (dtype_of a) _ _ Hb Hf) as Hcf.
  rewrite Ecf. repeat split.
  - rewrite (nth_error_column _ _ _ _ _ _ Hi). now rewrite Hcf.
  - rewrite (nth_error_column _ _ _ _ _ _ Hi). f_equal.
    unfold gmag_corrected1. rewrite (is_nan_eq _ Hnan). reflexivity.
  - eexists. split; [apply (nth_error_column _ _ _ _ _ _ Hi) |].
    rewrite (gflux_unchanged _ _ _ _ Hv Hcf). split.
    + now apply number_convert.
    + intros Hd.
      replace (result_type (dtype_of d) (dtype_of c)) with (dtype_of d)
        by (destruct Hd as [-> | ->]; now destruct (dtype_of d)).
      apply convert_same.
Qed.

(** ** Regimes *)

Lemma eligible_not_excluded dm s :
  eligible dm s -> do_not_correct1 dm s = false.
Proof.
  intros (Hc & Hp & Hm). unfold do_not_correct1.
  rewrite Hc, Hp. cbn [less_equal numeric] in *.
  now rewrite (SFltb_SFleb_false _ _ Hm).
Qed.

Lemma eligible_bright dm s :
  eligible dm s ->
  bright_correct1 dm s = less_equal (gmag s) (pyscalar dm 16).
Proof.
  intros H. unfold bright_correct1.
  rewrite (eligible_not_excluded _ _ H).
  destruct H as (_ & _ & Hm). now rewrite Hm.
Qed.

Lemma eligible_faint dm s :
  eligible dm s -> faint_correct1 dm s = less (pyscalar dm 16) (gmag s).
Proof.
  intros H. unfold faint_correct1. now rewrite (eligible_not_excluded _ _ H).
Qed.

Lemma is_nan_threshold dm :
  is_nan (pyscalar dm 13) = false /\ is_nan (pyscalar dm 16) = false.
Proof. destruct dm; split; reflexivity. Qed.

(** An eligible source is in exactly one regime. *)
Lemma eligible_one_regime dm s :
  eligible dm s ->
  less (pyscalar dm 16) (gmag s) = negb (less_equal (gmag s) (pyscalar dm 16)).
Proof.
  intros (_ & _ & Hm). cbn [less less_equal numeric] in *.
  destruct (SFltb_not_nan _ _ Hm) as [_ Hn].
  rewrite (SFleb_negb_SFltb _ _ Hn (proj2 (is_nan_threshold dm))).
  now rewrite negb_involutive.
Qed.

(** C2 (regime assignment).  In a call that passes the shape check, for an
    eligible source the do-not-correct mask is false, the bright mask is
    [magnitude <= 16] and the faint mask is [magnitude > 16], of which
    exactly one holds.  A source of magnitude exactly 13.0 is excluded; an
    otherwise eligible source of magnitude exactly 16.0 is in the bright
    regime and not in the faint one. *)
Theorem regime_assignment bp aps mag flux a b c d :
  accepted bp aps mag flux a b c d ->
  let dm := dtype_of c in
  let dnc := do_not_correct a b c in
  forall i s,
    nth_error (sources a b c d) i = Some s ->
    (eligible dm s ->
     nth_error (data dnc) i = Some false
     /\ nth_error (data (bright_correct dnc c)) i
        = Some (less_equal (gmag s) (pyscalar dm 16))
     /\ nth_error (data (faint_correct dnc c)) i
        = Some (less (pyscalar dm 16) (gmag s))
     /\ less (pyscalar dm 16) (gmag s)
        = negb (less_equal (gmag s) (pyscalar dm 16)))
    /\ (gmag s = pyscalar dm 13 ->
        nth_error (data dnc) i = Some true
        /\ nth_error (data (bright_correct dnc c)) i = Some false
        /\ nth_error (data (faint_correct dnc c)) i = Some false)
    /\ (gmag s = pyscalar dm 16 ->
        isnan (colour s) = false -> params_solved s = 95%Z ->
        nth_error (data dnc) i = Some false
        /\ nth_error (data (bright_correct dnc c)) i = Some true
        /\ nth_error (data (faint_correct dnc c)) i = Some false).
Proof.
  intros Hacc dm dnc i s Hi.
  destruct (accepted_returns _ _ _ _ _ _ _ _ Hacc)
    as (_ & _ & Ednc & Eb & Ef).
  fold dnc in Ednc, Eb, Ef. fold dm in Ednc, Eb, Ef.
  rewrite Eb, Ef, Ednc.
  rewrite !(nth_error_mask _ _ _ _ _ Hi).
  split; [| split].
  - intros He.
    rewrite (eligible_not_excluded _ _ He), (eligible_bright _ _ He),
      (eligible_faint _ _ He).
    repeat split. now apply eligible_one_regime.
  - intros Hm.
    assert (Hd : do_not_correct1 dm s = true).
    { unfold do_not_correct1. rewrite Hm.
      replace (less_equal (pyscalar dm 13) (pyscalar dm 13)) with true
        by (destruct dm; reflexivity).
      now rewrite orb_true_r. }
    destruct (excluded_outside_regimes _ _ Hd) as [Hb Hf].
    now rewrite Hd, Hb, Hf.
  - intros Hm Hc Hp.
    assert (He : eligible dm s).
    { repeat split; try assumption. rewrite Hm. now destruct dm. }
    rewrite (eligible_not_excluded _ _ He), (eligible_bright _ _ He),
      (eligible_faint _ _ He), Hm.
    destruct dm; repeat split; reflexivity.
Qed.

(** ** Clipping *)

Lemma SFcompare_Eq_finite s m e x :
  SFcompare (S754_finite s m e) x = Some Eq -> x = S754_finite s m e.
Proof.
  destruct x as [sx | sx | | sx mx ex]; destruct s; try destruct sx;
    cbn [SFcompare]; try discriminate;
    destruct (Z.compare_spec e ex); try discriminate;
    change (Pos.compare_cont Eq m mx) with (Pos.compare m mx);
    destruct (Pos.compare_spec m mx); cbn [CompOpp]; try discriminate;
    intros _; now subst.
Qed.

(** Of two numbers with [x <= y], one finite and nonzero, either [x < y]
    or they are the same float. *)
Lemma SFleb_cases_l s m e y :
  SFleb (S754_finite s m e) y = true ->
  SFltb (S754_finite s m e) y = true \/ y = S754_finite s m e.
Proof.
  unfold SFleb, SFltb. intros H.
  destruct (SFcompare (S754_finite s m e) y) as [[| |]|] eqn:E;
    try discriminate; [right | left]; auto using SFcompare_Eq_finite.
Qed.

Lemma SFleb_cases_r x s m e :
  SFleb x (S754_finite s m e) = true ->
  SFltb x (S754_finite s m e) = true \/ x = S754_finite s m e.
Proof.
  unfold SFleb, SFltb. intros H.
  destruct (SFcompare x (S754_finite s m e)) as [[| |]|] eqn:E;
    try discriminate; [right | left]; auto.
  rewrite (SFcompare_swap (S754_finite s m e) x) in E.
  apply SFcompare_Eq_finite.
  destruct (SFcompare (S754_finite s m e) x) as [[| |]|];
    cbn in E; congruence.
Qed.

(** The two bounds, as floats of a dtype. *)
Lemma clip_bounds dt :
  exists mlo elo mhi ehi,
    pyscalar dt 0.25 = S754_finite false mlo elo
    /\ pyscalar dt 3.0 = S754_finite false mhi ehi
    /\ SFltb (pyscalar dt 0.25) (pyscalar dt 3.0) = true.
Proof. destruct dt; do 4 eexists; repeat split; reflexivity. Qed.

(** [np.clip] with the bounds 0.25 and 3.0, case by case. *)
Lemma clip1_below dt x :
  less_equal x (pyscalar dt 0.25) = true ->
  clip1 dt x 0.25 3.0 = pyscalar dt 0.25.
Proof.
  intros H. cbn [less_equal numeric] in H.
  destruct (clip_bounds dt) as (mlo & elo & mhi & ehi & Elo & Ehi & Hlt).
  unfold clip1, maximum, minimum. cbn [isnan less numeric].
  rewrite (proj1 (SFleb_not_nan _ _ H)), (SFleb_SFltb_false _ _ H).
  rewrite Hlt, Elo. reflexivity.
Qed.

Lemma clip1_above dt x :
  less_equal (pyscalar dt 3.0) x = true ->
  clip1 dt x 0.25 3.0 = pyscalar dt 3.0.
Proof.
  intros H. cbn [less_equal numeric] in H.
  destruct (clip_bounds dt) as (mlo & elo & mhi & ehi & Elo & Ehi & Hlt).
  unfold clip1, maximum, minimum. cbn [isnan less numeric].
  rewrite (proj2 (SFleb_not_nan _ _ H)).
  rewrite (SFltb_SFleb_trans _ _ _ Hlt H).
  rewrite (proj2 (SFleb_not_nan _ _ H)), (SFleb_SFltb_false _ _ H).
  reflexivity.
Qed.

Lemma clip1_inside dt x :
  less_equal (pyscalar dt 0.25) x = true ->
  less_equal x (pyscalar dt 3.0) = true ->
  clip1 dt x 0.25 3.0 = x.
Proof.
  intros H1 H2. cbn [less_equal numeric] in H1, H2.
  destruct (clip_bounds dt) as (mlo & elo & mhi & ehi & Elo & Ehi & Hlt).
  unfold clip1, maximum, minimum. cbn [isnan less numeric].
  rewrite (proj2 (SFleb_not_nan _ _ H1)).
  rewrite Elo in H1 |- *. rewrite Ehi in H2 |- *.
  destruct (SFleb_cases_l _ _ _ _ H1) as [Hl | ->].
  - rewrite Hl, (proj2 (SFltb_not_nan _ _ Hl)).
    destruct (SFleb_cases_r _ _ _ _ H2) as [Hh | ->].
    + now rewrite Hh.
    + match goal with |- context [if ?t then _ else _] => now destruct t end.
  - rewrite Elo, Ehi in Hlt.
    destruct (SFltb (S754_finite false mlo elo) (S754_finite false mlo elo));
      cbn [is_nan]; now rewrite Hlt.
Qed.

Lemma clip1_nan dt : clip1 dt S754_nan 0.25 3.0 = S754_nan.
Proof. reflexivity. Qed.

(** C3 (correction formula).  In a call that passes the shape check, for
    an eligible source, with [x] its colour clipped to [0.25, 3.0], the
    correction factor is
    [1.00525 - 0.02323*x + 0.01740*x^2 - 0.00253*x^3] when the magnitude is
    above 16 and [1.00876 - 0.02540*x + 0.01747*x^2 - 0.00277*x^3]
    otherwise, evaluated from left to right in the dtype of the colour and
    stored in the dtype of the magnitude; the corrected magnitude is
    [magnitude - 2.5 * log10(factor)] and the corrected flux is
    [flux * factor]. *)
Theorem correction_formula bp aps mag flux a b c d :
  accepted bp aps mag flux a b c d ->
  let dc := dtype_of a in
  let dm := dtype_of c in
  let rt := result_type (dtype_of d) dm in
  exists gm gf,
    correct_gband bp aps mag flux = Ok (gm, gf)
    /\ forall i s,
        nth_error (sources a b c d) i = Some s ->
        eligible dm s ->
        let x := clip1 dc (colour s) 0.25 3.0 in
        let k := pyscalar dc in
        let faint_value :=
          subtract dc
            (add dc (subtract dc (k 1.00525) (multiply dc (k 0.02323) x))
                    (multiply dc (k 0.01740) (power dc x 2)))
            (multiply dc (k 0.00253) (power dc x 3)) in
        let bright_value :=
          subtract dc
            (add dc (subtract dc (k 1.00876) (multiply dc (k 0.02540) x))
                    (multiply dc (k 0.01747) (power dc x 2)))
            (multiply dc (k 0.00277) (power dc x 3)) in
        let factor :=
          convert dc dm
            (if less (pyscalar dm 16) (gmag s) then faint_value
             else bright_value) in
        ((less_equal (colour s) (k 0.25) = true -> x = k 0.25)
         /\ (less_equal (k 3.0) (colour s) = true -> x = k 3.0)
         /\ (less_equal (k 0.25) (colour s) = true ->
             less_equal (colour s) (k 3.0) = true -> x = colour s))
        /\ nth_error (fdata (correction_factor a b c)) i = Some factor
        /\ nth_error (fdata gm) i
           = Some (subtract dm (gmag s)
                     (multiply dm (pyscalar dm 2.5) (log10 dm factor)))
        /\ nth_error (fdata gf) i
           = Some (multiply rt (convert (dtype_of d) rt (gflux s))
                     (convert dm rt factor)).
Proof.
  intros Hacc dc dm rt. subst dc dm rt.
  destruct (accepted_returns _ _ _ _ _ _ _ _ Hacc) as (E & Ecf & _).
  eexists _, _. split; [exact E |].
  intros i s Hi He x k faint_value bright_value factor.
  assert (Hcf : correction_factor1 (dtype_of a) (dtype_of c) s = factor).
  { unfold correction_factor1.
    rewrite (eligible_bright _ _ He), (eligible_faint _ _ He).
    unfold factor. rewrite (eligible_one_regime _ _ He).
    now destruct (less_equal (gmag s) (pyscalar (dtype_of c) 16)). }
  split; [| split; [| split]].
  - repeat split.
    + apply clip1_below.
    + apply clip1_above.
    + apply clip1_inside.
  - rewrite Ecf, (nth_error_column _ _ _ _ _ _ Hi). now rewrite Hcf.
  - rewrite (nth_error_column _ _ _ _ _ _ Hi).
    unfold gmag_corrected1. now rewrite Hcf.
  - rewrite (nth_error_column _ _ _ _ _ _ Hi).
    unfold gflux_corrected1. now rewrite Hcf.
Qed.

Lemma same_clipped_factor dc dm (s s' : source spec_float) :
  same_clipped_colour dc (colour s) (colour s') ->
  params_solved s = params_solved s' -> gmag s = gmag s' ->
  correction_factor1 dc dm s = correction_factor1 dc dm s'.
Proof.
  destruct s as [x p m f], s' as [x' p' m' f']; cbn [colour params_solved gmag].
  intros Hc <- <-.
  assert (H : isnan x = isnan x'
              /\ clip1 dc x 0.25 3.0 = clip1 dc x' 0.25 3.0).
  { destruct Hc as [-> | [[H H'] | [H H']]]; [now split | |].
    - rewrite (clip1_below _ _ H), (clip1_below _ _ H').
      cbn [less_equal isnan numeric] in *.
      now rewrite (proj1 (SFleb_not_nan _ _ H)), (proj1 (SFleb_not_nan _ _ H')).
    - rewrite (clip1_above _ _ H), (clip1_above _ _ H').
      cbn [less_equal isnan numeric] in *.
      now rewrite (proj2 (SFleb_not_nan _ _ H)), (proj2 (SFleb_not_nan _ _ H')). }
  destruct H as [Hn Hx].
  unfold correction_factor1, bright_correct1, faint_correct1, do_not_correct1,
    clipped_colour.
  cbn [colour params_solved gmag]. now rewrite Hn, Hx.
Qed.

(** C6 (clipping constancy).  Two calls that pass the shape check and
    differ only in colours that are, position by position, equal, or both
    at most 0.25, or both at least 3.0, return the same results.  A colour
    at most 0.25 enters the polynomial as 0.25, a colour at least 3.0 as
    3.0, and the clipping of a NaN is a NaN. *)
Theorem clipping_constancy bp bp' aps mag flux a a' b c d :
  accepted bp aps mag flux a b c d ->
  accepted bp' aps mag flux a' b c d ->
  dtype_of a' = dtype_of a ->
  Forall2 (same_clipped_colour (dtype_of a)) (fdata a) (fdata a') ->
  (exists gm gf,
      correct_gband bp aps mag flux = Ok (gm, gf)
      /\ correct_gband bp' aps mag flux = Ok (gm, gf))
  /\ (forall dt x,
         less_equal x (pyscalar dt 0.25) = true ->
         clip1 dt x 0.25 3.0 = pyscalar dt 0.25)
  /\ (forall dt x,
         less_equal (pyscalar dt 3.0) x = true ->
         clip1 dt x 0.25 3.0 = pyscalar dt 3.0)
  /\ (forall dt, clip1 dt S754_nan 0.25 3.0 = S754_nan).
Proof.
  intros Hacc Hacc' Hdt Hcol.
  destruct (accepted_returns _ _ _ _ _ _ _ _ Hacc) as (E & _).
  destruct (accepted_returns _ _ _ _ _ _ _ _ Hacc') as (E' & _).
  split; [| auto using clip1_below, clip1_above, clip1_nan].
  eexists _, _. split; [exact E |].
  rewrite E', Hdt. unfold column, sources. do 3 f_equal.
  - apply map_Forall2_eq.
    eapply Forall2_impl; [| apply sources_Forall2, Forall2_flip, Hcol].
    cbn beta. intros s' s (Hc & Hp & Hm & Hf).
    unfold gmag_corrected1.
    now rewrite (same_clipped_factor _ _ _ _ Hc (eq_sym Hp) (eq_sym Hm)), Hm.
  - apply map_Forall2_eq.
    eapply Forall2_impl; [| apply sources_Forall2, Forall2_flip, Hcol].
    cbn beta. intros s' s (Hc & Hp & Hm & Hf).
    unfold gflux_corrected1.
    now rewrite (same_clipped_factor _ _ _ _ Hc (eq_sym Hp) (eq_sym Hm)), Hf.
Qed.

(** The bright and the faint masks exclude each other. *)
Lemma bright_faint_disjoint dm (s : source spec_float) :
  bright_correct1 dm s && faint_correct1 dm s = false.
Proof.
  unfold bright_correct1, faint_correct1. cbn [less less_equal numeric].
  destruct (SFleb (gmag s) (pyscalar dm 16)) eqn:H.
  - rewrite (SFleb_SFltb_false _ _ H). now rewrite !andb_false_r.
  - now rewrite !andb_false_r.
Qed.

(** C9 (shape preservation, whole-element correction).  In a call that
    passes the shape check both results have the shape of the four inputs
    and as many elements as the shape says.  The three masks are pairwise
    disjoint, and each source is either in the bright regime, with both
    results computed from the bright factor, or in the faint regime, with
    both results computed from the faint factor, or in neither, with its
    magnitude and flux returned unchanged. *)
Theorem whole_element_correction bp aps mag flux a b c d :
  log10_one L ->
  accepted bp aps mag flux a b c d ->
  let dc := dtype_of a in
  let dm := dtype_of c in
  let df := dtype_of d in
  let dnc := do_not_correct a b c in
  exists gm gf,
    correct_gband bp aps mag flux = Ok (gm, gf)
    /\ (fshape gm = fshape a /\ fshape gm = shape b
        /\ fshape gm = fshape c /\ fshape gm = fshape d
        /\ fshape gf = fshape gm)
    /\ (length (fdata gm) = size (fshape gm)
        /\ length (fdata gf) = size (fshape gf))
    /\ forall i s,
        nth_error (sources a b c d) i = Some s ->
        valid df (gflux s) = true ->
        exists k br fa g f,
          nth_error (data dnc) i = Some k
          /\ nth_error (data (bright_correct dnc c)) i = Some br
          /\ nth_error (data (faint_correct dnc c)) i = Some fa
          /\ nth_error (fdata gm) i = Some g
          /\ nth_error (fdata gf) i = Some f
          /\ (k && br = false /\ k && fa = false /\ br && fa = false)
          /\ ((br = true
               /\ (g, f) = corrected_with dm df
                    (convert dc dm
                       (bright_polynomial1 dc (clip1 dc (colour s) 0.25 3.0)))
                    s)
              \/ (fa = true
                  /\ (g, f) = corrected_with dm df
                       (convert dc dm
                          (faint_polynomial1 dc
                             (clip1 dc (colour s) 0.25 3.0)))
                       s)
              \/ (br = false /\ fa = false
                  /\ g = gmag s /\ number f = number (gflux s))).
Proof.
  intros HL Hacc dc dm df dnc. subst dc dm df.
  destruct (accepted_returns _ _ _ _ _ _ _ _ Hacc)
    as (E & Ecf & Ednc & Eb & Ef).
  fold dnc in Ednc, Eb, Ef.
  pose proof (accepted_size _ _ _ _ _ _ _ _ Hacc) as Hlen.
  destruct Hacc as (_ & _ & Hs).
  destruct (same_shape_eq _ _ _ _ Hs) as (Sa & Sb & Sd).
  eexists _, _. split; [exact E |].
  cbn [fshape fdata column]. rewrite !length_map.
  split; [repeat split; congruence |]. split; [split; exact Hlen |].
  intros i s Hi Hv.
  exists (do_not_correct1 (dtype_of c) s), (bright_correct1 (dtype_of c) s),
    (faint_correct1 (dtype_of c) s).
  eexists _, _.
  rewrite Eb, Ef, Ednc. rewrite !(nth_error_mask _ _ _ _ _ Hi).
  rewrite !(map_nth_error _ _ _ Hi).
  do 5 (split; [reflexivity |]).
  split.
  - repeat split.
    + unfold bright_correct1. now destruct (do_not_correct1 _ s).
    + unfold faint_correct1. now destruct (do_not_correct1 _ s).
    + apply bright_faint_disjoint.
  - unfold gmag_corrected1, gflux_corrected1, corrected_with.
    destruct (bright_correct1 (dtype_of c) s) eqn:Hb;
      [| destruct (faint_correct1 (dtype_of c) s) eqn:Hf].
    + left. split; [reflexivity |].
      unfold correction_factor1, clipped_colour. now rewrite Hb.
    + right; left. split; [reflexivity |].
      unfold correction_factor1, clipped_colour. now rewrite Hb, Hf.
    + right; right.
      pose proof (factor_outside_regimes (dtype_of a) _ _ Hb Hf) as Hcf.
      repeat split.
      * now apply gmag_unchanged.
      * fold (gflux_corrected1 (dtype_of a) (dtype_of c) (dtype_of d) s).
        rewrite (gflux_unchanged _ _ _ _ Hv Hcf).
        now apply number_convert.
Qed.

End IEEE_claims.

(** ** The properties at the example inputs *)

#[local] Existing Instance IEEE.libm_ref.
#[local] Existing Instance IEEE.numeric.

(** The reference C library satisfies what is asked of [log10], and the
    example tables pass the shape check. *)
Lemma libm_ref_log10_one : IEEE.log10_one IEEE.libm_ref.
Proof. intros [|]; vm_compute; reflexivity. Qed.

Lemma ex_accepted :
  @accepted _ (@IEEE.numeric IEEE.libm_ref)
            (Array IEEE.ex_bp_rp) (Array IEEE.ex_aps)
            (Array IEEE.ex_mag) (Array IEEE.ex_flux)
            IEEE.ex_bp_rp IEEE.ex_aps IEEE.ex_mag IEEE.ex_flux.
Proof. repeat split. Qed.

(** The third source of the example table has solution code 31: its
    magnitude 18.0 and its flux 400.0 are returned unchanged. *)
Lemma identity_on_exclusion_witness :
  exists gm gf,
    IEEE.correct_gband_ref (Array IEEE.ex_bp_rp) (Array IEEE.ex_aps)
                           (Array IEEE.ex_mag) (Array IEEE.ex_flux)
    = Ok (gm, gf)
    /\ nth_error (fdata gm) 2 = Some (IEEE.round_Q float32 18.0)
    /\ nth_error (fdata gf) 2 = Some (IEEE.pyfloat 400.0).
Proof.
  destruct (@identity_on_exclusion IEEE.libm_ref _ _ _ _ _ _ _ _
              libm_ref_log10_one ex_accepted) as (gm & gf & E & H).
  exists gm, gf. split; [exact E |].
  assert (Hcode : 31%Z <> 95%Z) by discriminate.
  destruct (H 2%nat (mk_source _ _ _ _) eq_refl eq_refl (or_introl Hcode))
    as (_ & Hm & f & Hf & _ & Hsame).
  split; [exact Hm |].
  rewrite Hf. f_equal. apply Hsame. left. reflexivity.
Defined.

(** The fourth source of the example table has a NaN magnitude: its
    corrected magnitude is NaN and its flux 250.0 is returned unchanged. *)
Lemma nan_magnitude_propagates_witness :
  exists gm gf,
    IEEE.correct_gband_ref (Array IEEE.ex_bp_rp) (Array IEEE.ex_aps)
                           (Array IEEE.ex_mag) (Array IEEE.ex_flux)
    = Ok (gm, gf)
    /\ nth_error (fdata gm) 3 = Some S754_nan
    /\ nth_error (fdata gf) 3 = Some (IEEE.pyfloat 250.0).
Proof.
  destruct (@nan_magnitude_propagates IEEE.libm_ref _ _ _ _ _ _ _ _
              ex_accepted) as (gm & gf & E & H).
  exists gm, gf. split; [exact E |].
  destruct (H 3%nat (mk_source _ _ _ _) eq_refl eq_refl eq_refl)
    as (_ & Hm & f & Hf & _ & Hsame).
  split; [exact Hm |].
  rewrite Hf. f_equal. apply Hsame. left. reflexivity.
Defined.

(** In the example table the first source (magnitude 17.0) is in the
    faint regime and the fifth (magnitude 14.5) in the bright regime. *)
Lemma regime_assignment_witness :
  let dnc := do_not_correct IEEE.ex_bp_rp IEEE.ex_aps IEEE.ex_mag in
  (nth_error (data (bright_correct dnc IEEE.ex_mag)) 0 = Some false
   /\ nth_error (data (faint_correct dnc IEEE.ex_mag)) 0 = Some true)
  /\ (nth_error (data (bright_correct dnc IEEE.ex_mag)) 4 = Some true
      /\ nth_error (data (faint_correct dnc IEEE.ex_mag)) 4 = Some false).
Proof.
  intros dnc.
  pose proof (@regime_assignment IEEE.libm_ref _ _ _ _ _ _ _ _ ex_accepted)
    as H. cbv zeta in H. fold dnc in H.
  split.
  - destruct (H 0%nat (mk_source _ _ _ _) eq_refl) as (H0 & _).
    destruct H0 as (_ & Hb & Hf & _); [repeat split | ].
    split; [exact Hb | exact Hf].
  - destruct (H 4%nat (mk_source _ _ _ _) eq_refl) as (H4 & _).
    destruct H4 as (_ & Hb & Hf & _); [repeat split | ].
    split; [exact Hb | exact Hf].
Defined.

(** The first source of the example table: colour 1.5 and magnitude 17.0
    in single precision, flux 1000.0 in double precision. *)
Lemma correction_formula_witness :
  exists gm gf,
    IEEE.correct_gband_ref (Array IEEE.ex_bp_rp) (Array IEEE.ex_aps)
                           (Array IEEE.ex_mag) (Array IEEE.ex_flux)
    = Ok (gm, gf)
    /\ nth_error (fdata (IEEE.correction_factor_ref
                           IEEE.ex_bp_rp IEEE.ex_aps IEEE.ex_mag)) 0
       = Some (S754_finite false 8397133 (-23))
    /\ nth_error (fdata gm) 0 = Some (S754_finite false 8912318 (-19))
    /\ nth_error (fdata gf) 0
       = Some (S754_finite false 8805032132608000 (-43)).
Proof.
  destruct (@correction_formula IEEE.libm_ref _ _ _ _ _ _ _ _ ex_accepted)
    as (gm & gf & E & H).
  exists gm, gf. split; [exact E |].
  assert (He : @eligible _ (@IEEE.numeric IEEE.libm_ref) float32
                 (mk_source (IEEE.round_Q float32 1.5) 95
                            (IEEE.round_Q float32 17.0) (IEEE.pyfloat 1000.0)))
    by (repeat split).
  destruct (H 0%nat _ eq_refl He) as (_ & Hcf & Hm & Hf).
  split; [exact Hcf | split; [exact Hm | exact Hf]].
Defined.

Lemma ex_clip_accepted :
  accepted (Array IEEE.ex_clip_bp_rp) (Array IEEE.ex_clip_aps)
           (Array IEEE.ex_clip_mag) (Array IEEE.ex_clip_flux)
           IEEE.ex_clip_bp_rp IEEE.ex_clip_aps
           IEEE.ex_clip_mag IEEE.ex_clip_flux.
Proof. repeat split. Qed.

Lemma ex_clip_accepted' :
  accepted (Array IEEE.ex_clip_bp_rp') (Array IEEE.ex_clip_aps)
           (Array IEEE.ex_clip_mag) (Array IEEE.ex_clip_flux)
           IEEE.ex_clip_bp_rp' IEEE.ex_clip_aps
           IEEE.ex_clip_mag IEEE.ex_clip_flux.
Proof. repeat split. Qed.

(** Colours 0.1 and 0.2, 3.5 and infinity, 1.0 and 1.0: the same results. *)
Lemma clipping_constancy_witness :
  exists gm gf,
    IEEE.correct_gband_ref (Array IEEE.ex_clip_bp_rp) (Array IEEE.ex_clip_aps)
                           (Array IEEE.ex_clip_mag) (Array IEEE.ex_clip_flux)
    = Ok (gm, gf)
    /\ IEEE.correct_gband_ref (Array IEEE.ex_clip_bp_rp')
                              (Array IEEE.ex_clip_aps)
                              (Array IEEE.ex_clip_mag)
                              (Array IEEE.ex_clip_flux)
       = Ok (gm, gf).
Proof.
  assert (H : Forall2 (same_clipped_colour float32)
                      (fdata IEEE.ex_clip_bp_rp) (fdata IEEE.ex_clip_bp_rp')).
  { apply Forall2_cons; [right; left; split; reflexivity |].
    apply Forall2_cons; [right; right; split; reflexivity |].
    apply Forall2_cons; [left; reflexivity | apply Forall2_nil]. }
  exact (proj1 (@clipping_constancy IEEE.libm_ref _ _ _ _ _ _ _ _ _ _
                  ex_clip_accepted ex_clip_accepted' eq_refl H)).
Defined.

(** The example table has shape (6,), and so have both results. *)
Lemma whole_element_correction_witness :
  exists gm gf,
    IEEE.correct_gband_ref (Array IEEE.ex_bp_rp) (Array IEEE.ex_aps)
                           (Array IEEE.ex_mag) (Array IEEE.ex_flux)
    = Ok (gm, gf)
    /\ fshape gm = [6%nat] /\ fshape gf = [6%nat]
    /\ length (fdata gm) = 6%nat /\ length (fdata gf) = 6%nat.
Proof.
  destruct (@whole_element_correction IEEE.libm_ref _ _ _ _ _ _ _ _
              libm_ref_log10_one ex_accepted)
    as (gm & gf & E & (S1 & _ & _ & _ & S2) & (L1 & L2) & _).
  exists gm, gf. split; [exact E |].
  rewrite S2, S1 in *. repeat split; assumption.
Defined.

(** The second source of the 2 x 1 table in double precision. *)
Lemma scalar_vector_equivalence_witness :
  exists gm gf g f,
    IEEE.correct_gband_ref (Array IEEE.ex64_bp_rp) (Array IEEE.ex64_aps)
                           (Array IEEE.ex64_mag) (Array IEEE.ex64_flux)
    = Ok (gm, gf)
    /\ nth_error (fdata gm) 1 = Some g
    /\ nth_error (fdata gf) 1 = Some f
    /\ IEEE.correct_gband_ref (Scalar (IEEE.pyfloat 1.2)) (Scalar 95%Z)
                              (Scalar (IEEE.pyfloat 14.5))
                              (Scalar (IEEE.pyfloat 9500.0))
       = Ok (mk_farray float64 [] [g], mk_farray float64 [] [f]).
Proof.
  destruct (@scalar_vector_equivalence spec_float _
              IEEE.ex64_bp_rp IEEE.ex64_aps IEEE.ex64_mag IEEE.ex64_flux
              eq_refl eq_refl eq_refl eq_refl eq_refl eq_refl eq_refl eq_refl)
    as (gm & gf & E & H).
  destruct (H 1%nat (mk_source _ _ _ _) eq_refl) as (g & f & Hg & Hf & Es).
  exists gm, gf, g, f. repeat split; assumption.
Defined.

(** C7, as stated, fails for single-precision columns.  For one source
    with colour 1.5 and magnitude 17.0 in float32 arrays and flux 1000.0 in
    a float64 array, the call on the arrays evaluates the polynomial in
    single precision; the call on the same three numbers as Python floats
    evaluates it in double precision.  The two corrected fluxes are
    different binary64 numbers, and so are the two corrected magnitudes. *)
Lemma scalar_vector_differ :
  IEEE.correct_gband_ref (Array IEEE.ex32_bp_rp) (Array IEEE.ex32_aps)
                         (Array IEEE.ex32_mag) (Array IEEE.ex32_flux)
  = Ok (mk_farray float32 [1%nat] [S754_finite false 8912318 (-19)],
        mk_farray float64 [1%nat] [S754_finite false 8805032132608000 (-43)])
  /\ IEEE.correct_gband_ref
       (Scalar (IEEE.cast float64 (IEEE.round_Q float32 1.5)))
       (Scalar 95%Z)
       (Scalar (IEEE.cast float64 (IEEE.round_Q float32 17.0)))
       (Scalar (IEEE.pyfloat 1000.0))
     = Ok (mk_farray float64 [] [S754_finite false 4784764188088568 (-48)],
           mk_farray float64 [] [S754_finite false 8805032051741818 (-43)])
  /\ SFltb (S754_finite false 8805032051741818 (-43))
           (S754_finite false 8805032132608000 (-43)) = true
  /\ SFltb (S754_finite false 4784764188088568 (-48))
           (IEEE.cast float64 (S754_finite false 8912318 (-19))) = true.
Proof. repeat split; vm_compute; reflexivity. Qed.

(** The concrete scenario in binary64, with the reference library. *)
Lemma scenario_binary64 :
  IEEE.correction_factor_ref (mk_farray float64 [] [IEEE.pyfloat 1.5])
                             (mk_ndarray [] [95%Z])
                             (mk_farray float64 [] [IEEE.pyfloat 17.0])
  = mk_farray float64 [] [IEEE.pyfloat 1.00101625]
  /\ IEEE.correct_gband_ref (Scalar (IEEE.pyfloat 1.5)) (Scalar 95%Z)
                            (Scalar (IEEE.pyfloat 17.0))
                            (Scalar (IEEE.pyfloat 1000.0))
     = Ok (mk_farray float64 [] [S754_finite false 4784764188088568 (-48)],
           mk_farray float64 [] [S754_finite false 8805032051741818 (-43)]).
Proof. split; vm_compute; reflexivity. Qed.

(** C8, as stated, fails.  For colour 1.5, solution code 95, magnitude
    17.0 and flux 1000.0 the correction factor is above 1.001 (it is the
    binary64 number nearest to 1.00101625, not 0.98088), the corrected
    magnitude is below 16.999 (not 17.0209) and the corrected flux is
    above 1001 (not 980.88). *)
Lemma concrete_scenario_values :
  exists factor gmag_corr gflux_corr,
    IEEE.correction_factor_ref (mk_farray float64 [] [IEEE.pyfloat 1.5])
                               (mk_ndarray [] [95%Z])
                               (mk_farray float64 [] [IEEE.pyfloat 17.0])
    = mk_farray float64 [] [factor]
    /\ IEEE.correct_gband_ref (Scalar (IEEE.pyfloat 1.5)) (Scalar 95%Z)
                              (Scalar (IEEE.pyfloat 17.0))
                              (Scalar (IEEE.pyfloat 1000.0))
       = Ok (mk_farray float64 [] [gmag_corr],
             mk_farray float64 [] [gflux_corr])
    /\ SFltb (IEEE.pyfloat 1.001) factor = true
    /\ SFltb gmag_corr (IEEE.pyfloat 16.999) = true
    /\ SFltb (IEEE.pyfloat 1001.0) gflux_corr = true.
Proof.
  destruct scenario_binary64 as [Hcf Hout].
  eexists _, _, _. split; [exact Hcf |]. split; [exact Hout |].
  repeat split; vm_compute; reflexivity.
Qed.

(** ** Properties of the function in exact arithmetic *)

Section Ideal_claims.
Import Ideal.
Local Open Scope R_scope.

Lemma Rltb_true a b : a < b -> Rltb a b = true.
Proof. intros H. unfold Rltb. now destruct (Rlt_dec a b). Qed.

Lemma Rltb_false a b : b <= a -> Rltb a b = false.
Proof. intros H. unfold Rltb. destruct (Rlt_dec a b); [lra | reflexivity]. Qed.

Lemma Rleb_true a b : a <= b -> Rleb a b = true.
Proof. intros H. unfold Rleb. now destruct (Rle_dec a b). Qed.

Lemma Rleb_false a b : b < a -> Rleb a b = false.
Proof. intros H. unfold Rleb. destruct (Rle_dec a b); [lra | reflexivity]. Qed.


Lemma pyscalar_real dt q : pyscalar dt q = Real (Q2R q).
Proof. destruct dt; reflexivity. Qed.

Lemma convert_real d d' (x : xreal) : convert d d' x = x.
Proof. unfold convert. now destruct (dtype_eqb d d'). Qed.


Lemma faint_polynomial1_real dt x :
  faint_polynomial1 dt (Real x) = Real (faint_cubic x).
Proof.
  unfold faint_polynomial1, faint_cubic. rewrite !pyscalar_real.
  reflexivity.
Qed.




Lemma log_10_positive f : 0 < f -> log_10 (Real f) = Real (ln f / ln 10).
Proof. intros H. unfold log_10. now rewrite Rltb_true. Qed.



(** ** The concrete scenario *)

Ltac compare_reals :=
  repeat first [ rewrite Rltb_true by lra | rewrite Rltb_false by lra
               | rewrite Rleb_true by lra | rewrite Rleb_false by lra ].

Lemma scenario_masks :
  do_not_correct1 float64 scenario = false
  /\ bright_correct1 float64 scenario = false
  /\ faint_correct1 float64 scenario = true.
Proof.
  unfold faint_correct1, bright_correct1, do_not_correct1, scenario.
  rewrite !pyscalar_real.
  cbn [colour params_solved gmag isnan less less_equal numeric is_nan ltb leb].
  compare_reals. repeat split.
Qed.

Lemma scenario_clipped : clipped_colour float64 scenario = Real 1.5.
Proof.
  unfold clipped_colour, clip1, maximum, minimum, scenario.
  rewrite !pyscalar_real. cbn [colour isnan less numeric is_nan ltb].
  compare_reals. cbn [is_nan ltb]. compare_reals. reflexivity.
Qed.

Lemma scenario_correction_factor :
  correction_factor1 float64 float64 scenario = Real scenario_factor.
Proof.
  destruct scenario_masks as (_ & Hb & Hf).
  unfold correction_factor1. rewrite Hb, Hf, scenario_clipped.
  rewrite convert_real, faint_polynomial1_real. f_equal.
  unfold faint_cubic, scenario_factor. lra.
Qed.

Lemma pow_chain_below (x a b : R) (n : nat) :
  0 <= a <= x -> b <= a ^ n -> b <= x ^ n.
Proof.
  intros H Hb. apply Rle_trans with (a ^ n); [exact Hb | now apply pow_incr].
Qed.

Lemma pow_chain_above (x a b : R) (n : nat) :
  0 <= x <= a -> a ^ n <= b -> x ^ n <= b.
Proof.
  intros H Hb. apply Rle_trans with (a ^ n); [now apply pow_incr | exact Hb].
Qed.

(** [factor ^ 2500 > 10] and [factor ^ 6250 < 1000], by repeated powers. *)
Lemma scenario_factor_pow_below :
  10 < ((((scenario_factor ^ 5) ^ 5) ^ 5) ^ 5) ^ 4.
Proof.
  assert (H1 : 1.005 <= scenario_factor ^ 5)
    by (apply (pow_chain_below _ 1.001); unfold scenario_factor; lra).
  assert (H2 : 1.025 <= (scenario_factor ^ 5) ^ 5)
    by (apply (pow_chain_below _ 1.005); lra).
  assert (H3 : 1.131 <= ((scenario_factor ^ 5) ^ 5) ^ 5)
    by (apply (pow_chain_below _ 1.025); lra).
  assert (H4 : 1.85 <= (((scenario_factor ^ 5) ^ 5) ^ 5) ^ 5)
    by (apply (pow_chain_below _ 1.131); lra).
  assert (H5 : 11 <= ((((scenario_factor ^ 5) ^ 5) ^ 5) ^ 5) ^ 4)
    by (apply (pow_chain_below _ 1.85); lra).
  lra.
Qed.

Lemma scenario_factor_pow_above :
  (((((scenario_factor ^ 5) ^ 5) ^ 5) ^ 5) ^ 5) ^ 2 < 10 ^ 3.
Proof.
  assert (P : 0 < scenario_factor) by (unfold scenario_factor; lra).
  assert (H1 : scenario_factor ^ 5 <= 1.00512)
    by (apply (pow_chain_above _ 1.00102); unfold scenario_factor; lra).
  assert (Q1 : 0 < scenario_factor ^ 5) by now apply pow_lt.
  assert (H2 : (scenario_factor ^ 5) ^ 5 <= 1.0259)
    by (apply (pow_chain_above _ 1.00512); lra).
  assert (Q2 : 0 < (scenario_factor ^ 5) ^ 5) by now apply pow_lt.
  assert (H3 : ((scenario_factor ^ 5) ^ 5) ^ 5 <= 1.1365)
    by (apply (pow_chain_above _ 1.0259); lra).
  assert (Q3 : 0 < ((scenario_factor ^ 5) ^ 5) ^ 5) by now apply pow_lt.
  assert (H4 : (((scenario_factor ^ 5) ^ 5) ^ 5) ^ 5 <= 1.897)
    by (apply (pow_chain_above _ 1.1365); lra).
  assert (Q4 : 0 < (((scenario_factor ^ 5) ^ 5) ^ 5) ^ 5) by now apply pow_lt.
  assert (H5 : ((((scenario_factor ^ 5) ^ 5) ^ 5) ^ 5) ^ 5 <= 24.6)
    by (apply (pow_chain_above _ 1.897); lra).
  assert (Q5 : 0 < ((((scenario_factor ^ 5) ^ 5) ^ 5) ^ 5) ^ 5)
    by now apply pow_lt.
  assert (H6 : (((((scenario_factor ^ 5) ^ 5) ^ 5) ^ 5) ^ 5) ^ 2 <= 606)
    by (apply (pow_chain_above _ 24.6); lra).
  lra.
Qed.

Lemma ln_10_positive : 0 < ln 10.
Proof. rewrite <- ln_1. apply ln_increasing; lra. Qed.

(** The base-10 logarithm of the factor, to two digits. *)
Lemma scenario_log10 :
  0.0004 < ln scenario_factor / ln 10 < 0.00048.
Proof.
  assert (P : 0 < scenario_factor) by (unfold scenario_factor; lra).
  pose proof ln_10_positive as L10.
  assert (I5 : INR 5 = 5) by (simpl; lra).
  assert (I4 : INR 4 = 4) by (simpl; lra).
  assert (I3 : INR 3 = 3) by (simpl; lra).
  assert (I2 : INR 2 = 2) by (simpl; lra).
  assert (Hlo : ln 10 < 2500 * ln scenario_factor).
  { assert (T : 0 < 10) by lra.
    pose proof (ln_increasing _ _ T scenario_factor_pow_below) as H.
    rewrite !ln_pow in H by (repeat apply pow_lt; exact P).
    rewrite I5, I4 in H. lra. }
  assert (Hhi : 6250 * ln scenario_factor < 3 * ln 10).
  { assert (Q : 0 < (((((scenario_factor ^ 5) ^ 5) ^ 5) ^ 5) ^ 5) ^ 2)
      by (repeat apply pow_lt; exact P).
    pose proof (ln_increasing _ _ Q scenario_factor_pow_above) as H.
    rewrite !ln_pow in H by (repeat apply pow_lt; first [exact P | lra]).
    rewrite I5, I3, I2 in H. lra. }
  split; apply Rmult_lt_reg_r with (ln 10); try exact L10;
    unfold Rdiv; rewrite Rmult_assoc, Rinv_l by lra; lra.
Qed.

(** C8, amended (concrete scenario).  For colour 1.5, solution code 95,
    magnitude 17.0 and flux 1000.0 the source is in the faint regime with
    clipped colour 1.5.  In exact arithmetic the factor is
    [1.00525 - 0.02323*1.5 + 0.01740*2.25 - 0.00253*3.375 = 1.00101625],
    the corrected magnitude is [17 - 2.5 * log10 1.00101625], within
    0.0001 of 16.9989, and the corrected flux is 1001.01625.  In binary64
    with the reference library the factor is the float nearest to
    1.00101625, the corrected magnitude lies between 16.9988 and 16.9990
    and the corrected flux between 1001.0162 and 1001.0163. *)
Theorem concrete_scenario_amended :
  (faint_correct1 float64 scenario = true
   /\ clipped_colour float64 scenario = Real 1.5
   /\ scenario_factor = 1.00525 - 0.02323 * 1.5 + 0.01740 * 2.25
                        - 0.00253 * 3.375
   /\ correction_factor (mk_farray float64 [] [Real 1.5])
                        (mk_ndarray [] [95%Z])
                        (mk_farray float64 [] [Real 17])
      = mk_farray float64 [] [Real scenario_factor]
   /\ correct_gband (Scalar (Real 1.5)) (Scalar 95%Z) (Scalar (Real 17))
                    (Scalar (Real 1000))
      = Ok (mk_farray float64 []
                      [Real (17 - 2.5 * (ln scenario_factor / ln 10))],
            mk_farray float64 [] [Real 1001.01625])
   /\ 16.9988 < 17 - 2.5 * (ln scenario_factor / ln 10) < 16.9990)
  /\ (exists gmag_corr gflux_corr,
         IEEE.correction_factor_ref (mk_farray float64 [] [IEEE.pyfloat 1.5])
                                    (mk_ndarray [] [95%Z])
                                    (mk_farray float64 [] [IEEE.pyfloat 17.0])
         = mk_farray float64 [] [IEEE.pyfloat 1.00101625]
         /\ IEEE.correct_gband_ref (Scalar (IEEE.pyfloat 1.5)) (Scalar 95%Z)
                                   (Scalar (IEEE.pyfloat 17.0))
                                   (Scalar (IEEE.pyfloat 1000.0))
            = Ok (mk_farray float64 [] [gmag_corr],
                  mk_farray float64 [] [gflux_corr])
         /\ SFltb (IEEE.pyfloat 16.9988) gmag_corr = true
         /\ SFltb gmag_corr (IEEE.pyfloat 16.9990) = true
         /\ SFltb (IEEE.pyfloat 1001.0162) gflux_corr = true
         /\ SFltb gflux_corr (IEEE.pyfloat 1001.0163) = true).
Proof.
  split.
  - destruct (accepted_returns _ _ _ _ _ _ _ _
                (accepted_scalars (Real 1.5) 95%Z (Real 17) (Real 1000)))
      as (E & Ecf & _).
    pose proof scenario_correction_factor as Hcf.
    pose proof scenario_log10 as Hlog.
    split; [apply scenario_masks |]. split; [apply scenario_clipped |].
    split; [unfold scenario_factor; lra |].
    split; [| split].
    + rewrite Ecf. unfold column, sources. cbn [fdata data zip4 map dtype_of].
      fold scenario. now rewrite Hcf.
    + rewrite E. unfold column, sources. cbn [fdata data zip4 map dtype_of].
      fold scenario. unfold gmag_corrected1, gflux_corrected1.
      rewrite Hcf, !convert_real, pyscalar_real.
      cbn [log10 multiply subtract numeric result_type].
      rewrite log_10_positive by (unfold scenario_factor; lra).
      cbn [gmag gflux scenario mult minus plus opp fshape].
      do 5 f_equal. unfold scenario_factor. lra.
    + lra.
  - destruct scenario_binary64 as [Hcf Hout].
    eexists _, _. split; [exact Hcf |]. split; [exact Hout |].
    repeat split; vm_compute; reflexivity.
Qed.
End Ideal_claims.

(* ================================================================== *)
(** * 9. Further properties of the function and of the notebook checks *)
(* ================================================================== *)

(** ** In every arithmetic *)

Section Generic_properties.
Context {F : Type} {N : Numeric F}.

Lemma zip4_firstn n (cs : list F) (ps : list Z) (ms fs : list F) :
  zip4 (firstn n cs) (firstn n ps) (firstn n ms) (firstn n fs)
  = firstn n (zip4 cs ps ms fs).
Proof.
  revert cs ps ms fs.
  induction n as [| n IH]; intros cs ps ms fs; [reflexivity |].
  destruct cs as [| c cs]; [reflexivity |].
  destruct ps as [| p ps]; [reflexivity |].
  destruct ms as [| m ms]; [reflexivity |].
  destruct fs as [| f fs]; [reflexivity |].
  cbn [firstn zip4]. now rewrite IH.
Qed.

Lemma zip4_skipn n (cs : list F) (ps : list Z) (ms fs : list F) :
  length cs = length ps -> length ps = length ms -> length ms = length fs ->
  zip4 (skipn n cs) (skipn n ps) (skipn n ms) (skipn n fs)
  = skipn n (zip4 cs ps ms fs).
Proof.
  revert cs ps ms fs.
  induction n as [| n IH]; intros cs ps ms fs H1 H2 H3; [reflexivity |].
  destruct cs as [| c cs], ps as [| p ps], ms as [| m ms], fs as [| f fs];
    try discriminate; try reflexivity.
  cbn [skipn zip4]. cbn [length] in H1, H2, H3. apply IH; congruence.
Qed.

Lemma slice_column i j dt sh (f : source F -> F) rows :
  slice i j (column dt sh f rows)
  = column dt [length (firstn (j - i) (skipn i rows))] f
           (firstn (j - i) (skipn i rows)).
Proof.
  unfold slice, column. cbn [fdata dtype_of].
  now rewrite skipn_map, firstn_map, length_map.
Qed.

(** The arrays of an accepted call have as many elements as its table has
    rows. *)
Lemma accepted_lengths (a : farray F) (b : ndarray Z) (c d : farray F) :
  well_formed a -> well_formed_int b -> well_formed c -> well_formed d ->
  same_shape a b c d = true ->
  length (fdata a) = length (data b)
  /\ length (data b) = length (fdata c)
  /\ length (fdata c) = length (fdata d).
Proof.
  intros Wa Wb Wc Wd Hs.
  destruct (same_shape_eq _ _ _ _ Hs) as (E1 & E2 & E3).
  unfold well_formed, well_formed_int in *.
  rewrite Wa, Wb, Wc, Wd, E1, E2, E3. now repeat split.
Qed.

(** X1 (dtype and shape of the results).  When the call returns, the
    corrected magnitude has the dtype of the magnitude argument and the
    corrected flux the dtype NumPy promotes the flux and the magnitude to;
    the dtype of the colour plays no part.  When one of the four arguments
    is a Python scalar, all four were converted with [np.float64] /
    [np.int64]: both results are then float64, of shape [()], with one
    element. *)
Theorem result_dtype bp aps mag flux gm gf :
  well_formed_args bp aps mag flux ->
  correct_gband bp aps mag flux = Ok (gm, gf) ->
  (forall a b c d,
      bp = Array a -> aps = Array b -> mag = Array c -> flux = Array d ->
      dtype_of gm = dtype_of c
      /\ dtype_of gf = result_type (dtype_of d) (dtype_of c)
      /\ fshape gm = fshape c /\ fshape gf = fshape c)
  /\ (np_isscalar bp || np_isscalar aps || np_isscalar mag
      || np_isscalar flux = true ->
      dtype_of gm = float64 /\ dtype_of gf = float64
      /\ fshape gm = [] /\ fshape gf = []
      /\ exists g f, fdata gm = [g] /\ fdata gf = [f]).
Proof.
  intros W E.
  destruct (normalize bp aps mag flux) as [[[a b] c] d] eqn:En.
  destruct (same_shape a b c d) eqn:Hs.
  2:{ rewrite (correct_gband_raises _ _ _ _ _ _ _ _ En Hs) in E.
      discriminate. }
  pose proof (correct_gband_returns _ _ _ _ _ _ _ _ W En Hs) as R.
  cbv zeta in R. rewrite R in E. injection E as <- <-.
  split.
  - intros a0 b0 c0 d0 -> -> -> ->. cbn in En. injection En as <- <- <- <-.
    now repeat split.
  - intros Hsc.
    assert (En' : (np_float64 bp, np_int64 aps, np_float64 mag,
                   np_float64 flux) = (a, b, c, d)).
    { unfold normalize in En. now rewrite Hsc in En. }
    injection En' as Ea Eb Ec Ed.
    assert (Dc : dtype_of c = float64) by (subst c; now destruct mag).
    assert (Dd : dtype_of d = float64) by (subst d; now destruct flux).
    assert (Sc : fshape c = []).
    { destruct (normalize_shapes _ _ _ _ _ _ _ _ En) as (S1 & S2 & S3 & S4).
      destruct (proj1 (same_shape_iff _ _ _ _) Hs) as (T1 & T2 & T3).
      rewrite S1, S2 in T1. rewrite S2, S3 in T2. rewrite S3, S4 in T3.
      rewrite S3.
      destruct bp, aps, mag, flux; cbn in Hsc; try discriminate;
        cbn [arg_shape arg_shape_int] in *; congruence. }
    cbn [column dtype_of fshape fdata]. rewrite Dc, Dd, Sc.
    split; [reflexivity |]. split; [reflexivity |].
    split; [reflexivity |]. split; [reflexivity |].
    assert (Hl : length (sources a b c d) = 1%nat).
    { pose proof (accepted_size _ _ _ _ _ _ _ _ (conj W (conj En Hs))) as Hl.
      now rewrite Sc in Hl. }
    destruct (sources a b c d) as [| s [| s' rows]]; try discriminate.
    eexists _, _. split; reflexivity.
Qed.

(** X3 (rows are corrected independently).  For one-dimensional arrays,
    the call on the rows [i:j] of the four arrays returns the rows [i:j]
    of what the call on the whole arrays returns. *)
Theorem slice_commutes (a : farray F) (b : ndarray Z) (c d : farray F)
        (i j n : nat) :
  well_formed a -> well_formed_int b -> well_formed c -> well_formed d ->
  fshape a = [n] -> shape b = [n] -> fshape c = [n] -> fshape d = [n] ->
  exists gm gf,
    correct_gband (Array a) (Array b) (Array c) (Array d) = Ok (gm, gf)
    /\ correct_gband (Array (slice i j a)) (Array (slice_int i j b))
                     (Array (slice i j c)) (Array (slice i j d))
       = Ok (slice i j gm, slice i j gf).
Proof.
  intros Wa Wb Wc Wd Sa Sb Sc Sd.
  assert (Hs : same_shape a b c d = true).
  { apply same_shape_iff. rewrite Sa, Sb, Sc, Sd. now repeat split. }
  destruct (accepted_lengths _ _ _ _ Wa Wb Wc Wd Hs) as (L1 & L2 & L3).
  pose proof (correct_gband_returns (Array a) (Array b) (Array c) (Array d)
                a b c d (conj Wa (conj Wb (conj Wc Wd))) eq_refl Hs) as R.
  cbv zeta in R. eexists _, _. split; [exact R |].
  set (cut := fun (A : Type) (l : list A) => firstn (j - i) (skipn i l)).
  assert (Lcut : forall (A B : Type) (l : list A) (l' : list B),
             length l = length l' ->
             length (cut A l) = length (cut B l')).
  { intros A B l l' H. unfold cut.
    now rewrite !length_firstn, !length_skipn, H. }
  assert (Hs' : same_shape (slice i j a) (slice_int i j b)
                           (slice i j c) (slice i j d) = true).
  { apply same_shape_iff. cbn [slice slice_int fshape shape].
    fold (cut F (fdata a)) (cut Z (data b)) (cut F (fdata c))
         (cut F (fdata d)).
    rewrite (Lcut _ _ _ _ L1), (Lcut _ _ _ _ L2), (Lcut _ _ _ _ L3).
    now repeat split. }
  assert (W' : well_formed_args (Array (slice i j a))
                 (Array (slice_int i j b)) (Array (slice i j c))
                 (Array (slice i j d))).
  { unfold well_formed_args, well_formed, well_formed_int, slice, slice_int.
    cbn [fdata fshape data shape size fold_right].
    repeat split; now rewrite Nat.mul_1_r. }
  pose proof (correct_gband_returns _ _ _ _ (slice i j a) (slice_int i j b)
                (slice i j c) (slice i j d) W' eq_refl Hs') as R'.
  cbv zeta in R'. rewrite R'. rewrite !slice_column.
  assert (Erows : sources (slice i j a) (slice_int i j b) (slice i j c)
                          (slice i j d)
                  = firstn (j - i) (skipn i (sources a b c d))).
  { unfold sources, slice, slice_int. cbn [fdata data].
    now rewrite zip4_firstn, zip4_skipn. }
  rewrite Erows. cbn [slice dtype_of fshape fdata].
  assert (Elen : length (firstn (j - i) (skipn i (fdata c)))
                 = length (firstn (j - i) (skipn i (sources a b c d)))).
  { apply (Lcut _ _ (fdata c) (sources a b c d)).
    unfold sources. rewrite zip4_length by assumption. congruence. }
  rewrite Elen. reflexivity.
Qed.

Lemma slice_shape_nonempty i j (a : farray F) : fshape (slice i j a) <> [].
Proof. discriminate. Qed.

Lemma scalar_item_shape i (a : farray F) x :
  float_item i a = Some x -> arg_shape x = [].
Proof.
  unfold float_item. destruct (nth_error (fdata a) i); [| discriminate].
  now intros [= <-].
Qed.

Lemma scalar_item_shape_int i (b : ndarray Z) p :
  int_item i b = Some p -> arg_shape_int p = [].
Proof.
  unfold int_item. destruct (nth_error (data b) i); [| discriminate].
  now intros [= <-].
Qed.



End Generic_properties.

(** Counting the nulls of a column. *)
Lemma count_nan_filter {F : Type} {N : Numeric F} (a : farray F) :
  count_nan a = length (filter isnan (fdata a)).
Proof.
  unfold count_nan, getitem, np_isnan. cbn [data fdata].
  rewrite <- (map_id (fdata a)) at 2.
  now rewrite compress_map, length_map.
Qed.

Lemma count_nan_data {F : Type} {N : Numeric F} {A : Type} (a : farray F)
      (g : A -> F) (rows : list A) :
  fdata a = map g rows ->
  count_nan a = length (filter (fun r => isnan (g r)) rows).
Proof.
  intros E. rewrite count_nan_filter, E. clear E.
  induction rows as [| r rows IH]; [reflexivity |].
  cbn [map filter]. destruct (isnan (g r)); cbn [length]; now rewrite IH.
Qed.

Lemma filter_length_le {A : Type} (p q : A -> bool) (l : list A) :
  (forall x, In x l -> p x = true -> q x = true) ->
  (length (filter p l) <= length (filter q l))%nat.
Proof.
  induction l as [| x l IH]; intros H; [reflexivity |].
  assert (IH' := IH (fun y Hy => H y (or_intror Hy))).
  pose proof (H x (or_introl eq_refl)) as Hx.
  cbn [filter]. destruct (p x).
  - rewrite (Hx eq_refl). cbn [length]. lia.
  - destruct (q x); cbn [length]; lia.
Qed.


(** ** In IEEE 754 arithmetic *)

Section IEEE_properties.
Import IEEE.
Import Notebook.
Context {L : libm}.
Local Open Scope Z_scope.

Lemma one_mask dm (s : source spec_float) :
  isnan (gmag s) = false ->
  let k := do_not_correct1 dm s in
  let br := bright_correct1 dm s in
  let fa := faint_correct1 dm s in
  (k = true /\ br = false /\ fa = false)
  \/ (k = false /\ br = true /\ fa = false)
  \/ (k = false /\ br = false /\ fa = true).
Proof.
  intros Hn k br fa. subst k br fa.
  destruct (do_not_correct1 dm s) eqn:Hk.
  - left. split; [reflexivity |]. now apply excluded_outside_regimes.
  - right. unfold bright_correct1, faint_correct1. rewrite Hk.
    unfold do_not_correct1 in Hk.
    apply orb_false_elim in Hk. destruct Hk as [Hk _].
    apply orb_false_elim in Hk. destruct Hk as [_ Hk].
    cbn [isnan less less_equal numeric negb andb] in *.
    rewrite (SFleb_negb_SFltb _ _ Hn (proj1 (is_nan_threshold dm))) in Hk.
    apply negb_false_iff in Hk. rewrite Hk.
    rewrite (SFleb_negb_SFltb _ _ Hn (proj2 (is_nan_threshold dm))).
    destruct (SFltb (pyscalar dm 16) (gmag s)); cbn; auto.
Qed.

(** X2 (the three masks).  In a call that passes the shape check, a source
    whose magnitude is a number is in exactly one of the three masks
    (do not correct, bright, faint).  A source whose magnitude is NaN is in
    neither regime, and it is in the do-not-correct mask only for its
    colour or its solution code: with a colour that is a number and the
    solution code 95 it is in none of the three masks. *)
Theorem masks_cover bp aps mag flux a b c d :
  accepted bp aps mag flux a b c d ->
  let dnc := do_not_correct a b c in
  forall i s,
    nth_error (sources a b c d) i = Some s ->
    exists k br fa,
      nth_error (data dnc) i = Some k
      /\ nth_error (data (bright_correct dnc c)) i = Some br
      /\ nth_error (data (faint_correct dnc c)) i = Some fa
      /\ (isnan (gmag s) = false ->
          (k = true /\ br = false /\ fa = false)
          \/ (k = false /\ br = true /\ fa = false)
          \/ (k = false /\ br = false /\ fa = true))
      /\ (isnan (gmag s) = true ->
          br = false /\ fa = false
          /\ k = isnan (colour s) || negb (params_solved s =? 95)).
Proof.
  intros Hacc dnc i s Hi.
  destruct (accepted_returns _ _ _ _ _ _ _ _ Hacc) as (_ & _ & Ed & Eb & Ef).
  subst dnc. rewrite Eb, Ef, Ed.
  rewrite !(nth_error_mask _ _ _ _ _ Hi).
  eexists _, _, _. split; [reflexivity |]. split; [reflexivity |].
  split; [reflexivity |]. split.
  - apply one_mask.
  - intros Hn. destruct (nan_outside_regimes (dtype_of c) s Hn) as [Hb Hf].
    split; [exact Hb |]. split; [exact Hf |].
    unfold do_not_correct1. cbn [isnan less_equal numeric] in *.
    rewrite (is_nan_eq _ Hn), SFleb_nan_l. now rewrite orb_false_r.
Qed.

Lemma SFleb_refl_finite s m e :
  SFleb (S754_finite s m e) (S754_finite s m e) = true.
Proof.
  unfold SFleb, SFcompare. rewrite Z.compare_refl, Pos.compare_cont_refl.
  now destruct s.
Qed.

(** A colour and its clipped value enter the polynomial as the same
    value. *)
Lemma clip1_same_clipped dt x :
  same_clipped_colour dt x (clip1 dt x 0.25 3.0).
Proof.
  destruct (clip_bounds dt) as (mlo & elo & mhi & ehi & Elo & Ehi & Hlt).
  destruct (is_nan x) eqn:Hn.
  { left. rewrite (is_nan_eq _ Hn). now rewrite clip1_nan. }
  assert (Nlo : is_nan (pyscalar dt 0.25) = false) by now rewrite Elo.
  assert (Nhi : is_nan (pyscalar dt 3.0) = false) by now rewrite Ehi.
  destruct (SFleb x (pyscalar dt 0.25)) eqn:Hlo.
  { right; left. split; [exact Hlo |].
    rewrite (clip1_below _ _ Hlo). cbn [less_equal numeric].
    rewrite Elo. apply SFleb_refl_finite. }
  destruct (SFleb (pyscalar dt 3.0) x) eqn:Hhi.
  { right; right. split; [exact Hhi |].
    rewrite (clip1_above _ _ Hhi). cbn [less_equal numeric].
    rewrite Ehi. apply SFleb_refl_finite. }
  left. symmetry. apply clip1_inside; cbn [less_equal numeric];
    apply SFltb_SFleb.
  - rewrite (SFleb_negb_SFltb _ _ Hn Nlo) in Hlo.
    now apply negb_false_iff in Hlo.
  - rewrite (SFleb_negb_SFltb _ _ Nhi Hn) in Hhi.
    now apply negb_false_iff in Hhi.
Qed.

Lemma Forall2_map_r {A B : Type} (g : A -> B) (l : list A) :
  Forall2 (fun x y => y = g x) l (map g l).
Proof. induction l; constructor; auto. Qed.

(** X4 (clipping the colours beforehand).  Passing the colours already
    clipped to [0.25, 3.0] with [np.clip] gives the same outcome as
    passing the colours themselves: the same results, or the same
    exception. *)
Theorem clip_before_call (a : farray spec_float) (b : ndarray Z)
        (c d : farray spec_float) :
  well_formed a -> well_formed_int b -> well_formed c -> well_formed d ->
  correct_gband (Array (np_clip a 0.25 3.0)) (Array b) (Array c) (Array d)
  = correct_gband (Array a) (Array b) (Array c) (Array d).
Proof.
  intros Wa Wb Wc Wd.
  assert (Wa' : well_formed (np_clip a 0.25 3.0)).
  { unfold well_formed, np_clip. cbn [fdata fshape].
    now rewrite length_map. }
  destruct (same_shape a b c d) eqn:Hs.
  2:{ rewrite (correct_gband_raises (Array a) (Array b) (Array c) (Array d)
                 a b c d eq_refl Hs).
      now apply (correct_gband_raises (Array (np_clip a 0.25 3.0)) (Array b)
                   (Array c) (Array d) (np_clip a 0.25 3.0) b c d eq_refl). }
  pose proof (correct_gband_returns (Array a) (Array b) (Array c) (Array d)
                a b c d (conj Wa (conj Wb (conj Wc Wd))) eq_refl Hs) as R.
  pose proof (correct_gband_returns (Array (np_clip a 0.25 3.0)) (Array b)
                (Array c) (Array d) (np_clip a 0.25 3.0) b c d
                (conj Wa' (conj Wb (conj Wc Wd))) eq_refl Hs) as R'.
  cbv zeta in R, R'. rewrite R, R'.
  cbn [np_clip dtype_of fdata]. unfold column, sources. cbn [fdata].
  do 3 f_equal.
  - apply map_Forall2_eq.
    eapply Forall2_impl;
      [| apply sources_Forall2, Forall2_flip,
           (Forall2_map_r (fun x => clip1 (dtype_of a) x 0.25 3.0))].
    cbn beta. intros s' s (Hc & Hp & Hm & Hf).
    assert (Hcf : correction_factor1 (dtype_of a) (dtype_of c) s'
                  = correction_factor1 (dtype_of a) (dtype_of c) s).
    { symmetry. apply same_clipped_factor; [| congruence | congruence].
      rewrite Hc. apply clip1_same_clipped. }
    unfold gmag_corrected1. now rewrite Hcf, Hm.
  - apply map_Forall2_eq.
    eapply Forall2_impl;
      [| apply sources_Forall2, Forall2_flip,
           (Forall2_map_r (fun x => clip1 (dtype_of a) x 0.25 3.0))].
    cbn beta. intros s' s (Hc & Hp & Hm & Hf).
    assert (Hcf : correction_factor1 (dtype_of a) (dtype_of c) s'
                  = correction_factor1 (dtype_of a) (dtype_of c) s).
    { symmetry. apply same_clipped_factor; [| congruence | congruence].
      rewrite Hc. apply clip1_same_clipped. }
    unfold gflux_corrected1. now rewrite Hcf, Hf.
Qed.
Lemma SFsub_diag dt x :
  SFsub (prec dt) (emax dt) x x = if is_finite x then zero else S754_nan.
Proof.
  destruct x as [[|] | [|] | | s m e]; try reflexivity.
  cbn [SFsub is_finite]. rewrite Z.sub_diag. reflexivity.
Qed.

Lemma div_core_self dt m e :
  SFdiv_core_binary (prec dt) (emax dt) (Zpos m) e (Zpos m) e
  = (2 ^ prec dt, - prec dt, loc_Exact).
Proof.
  unfold SFdiv_core_binary. cbn [Zdigits2].
  replace (Z.pos (digits2_pos m) + e - (Z.pos (digits2_pos m) + e))
    with 0 by lia.
  rewrite Z.sub_diag.
  assert (He : Z.min (fexp (prec dt) (emax dt) 0) 0 = - prec dt)
    by (destruct dt; reflexivity).
  rewrite He. replace (0 - - prec dt) with (prec dt) by lia.
  assert (Hs : match prec dt with
               | 0 => Z.pos m
               | Z.pos _ => Z.shiftl (Z.pos m) (prec dt)
               | Z.neg _ => 0
               end = 2 ^ prec dt * Zpos m).
  { destruct dt; cbn [prec]; rewrite Z.shiftl_mul_pow2 by lia; lia. }
  rewrite Hs.
  assert (Hm : Z.pos m <> 0) by lia.
  pose proof (Z.div_mul (2 ^ prec dt) (Z.pos m) Hm) as Hq.
  pose proof (Z.mod_mul (2 ^ prec dt) (Z.pos m) Hm) as Hr.
  unfold Z.div, Z.modulo in Hq, Hr.
  destruct (Z.div_eucl (2 ^ prec dt * Z.pos m) (Z.pos m)) as [q r].
  subst q r.
  unfold new_location. destruct (Z.even (Z.pos m)); reflexivity.
Qed.

(** A number divided by itself: 1.0 for a finite number that is not zero,
    NaN otherwise. *)
Lemma SFdiv_diag dt x :
  divide dt x x = if is_finite_nonzero x then one dt else S754_nan.
Proof.
  unfold divide. destruct x as [[|] | [|] | | s m e]; try reflexivity.
  cbn [SFdiv is_finite_nonzero].
  rewrite div_core_self, xorb_nilpotent. destruct dt; reflexivity.
Qed.

Lemma is_finite_nonzero_convert df dm x :
  valid df x = true ->
  is_finite_nonzero (convert df (result_type df dm) x) = is_finite_nonzero x.
Proof.
  intros Hv. destruct df, dm; try reflexivity.
  cbn [result_type convert dtype_eqb numeric astype].
  destruct x as [| | | s m e]; try reflexivity.
  unfold valid in Hv. cbn [valid_binary] in Hv.
  destruct (cast_widen s m e Hv) as (k & -> & _). reflexivity.
Qed.

(** Reducing with [fmin] or [fmax] a list whose elements are one number
    or NaN. *)
Lemma fold_select {A : Type} (op : spec_float -> spec_float -> spec_float)
      (v : spec_float) (p : A -> bool) :
  op v v = v -> op v S754_nan = v -> op S754_nan v = v ->
  op S754_nan S754_nan = S754_nan ->
  forall (rows : list A) (acc : bool),
    fold_left op (map (fun r => if p r then v else S754_nan) rows)
              (if acc then v else S754_nan)
    = if acc || existsb p rows then v else S754_nan.
Proof.
  intros H1 H2 H3 H4 rows.
  induction rows as [| r rows IH]; intros acc.
  - now rewrite orb_false_r.
  - cbn [map fold_left existsb].
    replace (op (if acc then v else S754_nan) (if p r then v else S754_nan))
      with (if acc || p r then v else S754_nan)
      by (destruct acc, (p r); cbn; congruence).
    now rewrite IH, orb_assoc.
Qed.

Lemma reduce_select {A : Type}
      (op : spec_float -> spec_float -> spec_float) (name : string)
      (v : spec_float) (p : A -> bool) dt sh (rows : list A) :
  op v v = v -> op v S754_nan = v -> op S754_nan v = v ->
  op S754_nan S754_nan = S754_nan ->
  match fdata (mk_farray dt sh
                 (map (fun r => if p r then v else S754_nan) rows)) with
  | [] => Raise (zero_size name)
  | x :: l => Ok (fold_left op l x)
  end
  = match rows with
    | [] => Raise (zero_size name)
    | _ => Ok (if existsb p rows then v else S754_nan)
    end.
Proof.
  intros H1 H2 H3 H4. destruct rows as [| r rows]; [reflexivity |].
  cbn [fdata map]. f_equal.
  rewrite (fold_select op v p H1 H2 H3 H4 rows (p r)). reflexivity.
Qed.

Lemma ufunc2_columns (op : dtype -> spec_float -> spec_float -> spec_float)
      d1 sh f g (rows : list (source spec_float)) (y : farray spec_float) :
  fdata y = map g rows ->
  ufunc2 op (column d1 sh f rows) y
  = column (result_type d1 (dtype_of y)) sh
      (fun r => op (result_type d1 (dtype_of y))
                  (convert d1 (result_type d1 (dtype_of y)) (f r))
                  (convert (dtype_of y) (result_type d1 (dtype_of y)) (g r)))
      rows.
Proof.
  intros Ey. unfold ufunc2, column. cbn [dtype_of fshape fdata].
  now rewrite Ey, map2_map.
Qed.

(** X5 (the ranges printed by the notebook).  For arrays of one shape,
    with a C library whose [log10(1)] is [+0] and fluxes that are values
    of their dtype: over the sources for which no correction is expected,
    the least and the greatest difference between the corrected magnitude
    and the magnitude are both [+0.0] when one of these sources has a
    finite magnitude, and both NaN otherwise; the least and the greatest
    ratio of the corrected flux to the flux are both [1.0] when one of
    these sources has a finite flux that is not zero, and both NaN
    otherwise.  When there is no such source, the first [np.nanmin]
    raises a ValueError. *)
Theorem ranges_where_not_corrected (a : farray spec_float) (b : ndarray Z)
        (c d : farray spec_float) :
  log10_one L ->
  well_formed a -> well_formed_int b -> well_formed c -> well_formed d ->
  same_shape a b c d = true ->
  Forall (fun s => valid (dtype_of d) (gflux s) = true) (sources a b c d) ->
  let excluded := filter (do_not_correct1 (dtype_of c)) (sources a b c d) in
  let dg :=
    if existsb (fun s => is_finite (gmag s)) excluded then zero
    else S754_nan in
  let fr :=
    if existsb (fun s => is_finite_nonzero (gflux s)) excluded
    then one (result_type (dtype_of d) (dtype_of c))
    else S754_nan in
  ranges a b c d
  = match excluded with
    | [] => Raise (zero_size "fmin")
    | _ => Ok ((dg, dg), (fr, fr))
    end.
Proof.
  intros HL Wa Wb Wc Wd Hs Hv excluded dg fr.
  destruct (accepted_returns _ _ _ _ _ _ _ _
              (accepted_arrays a b c d Wa Wb Wc Wd Hs))
    as (E & _ & Ed & _).
  cbv zeta in E, Ed.
  destruct (arrays_as_columns a b c d Wa Wb Wc Wd Hs)
    as (_ & _ & Ec & Edd & _).
  cbv zeta in Ec, Edd.
  unfold ranges. rewrite E, Ed.
  apply (f_equal (@fdata spec_float)) in Ec, Edd. cbn [column fdata] in Ec, Edd.
  unfold deltag, fratio.
  rewrite (ufunc2_columns _ _ _ _ _ _ c Ec), (ufunc2_columns _ _ _ _ _ _ d Edd).
  rewrite !getitem_column.
  fold excluded.
  set (dm := dtype_of c) in *. set (df := dtype_of d) in *.
  set (dc := dtype_of a) in *.
  rewrite result_type_idem.
  replace (result_type (result_type df dm) df) with (result_type df dm)
    by (now destruct df, dm).
  assert (Hex : forall s, In s excluded ->
                          do_not_correct1 dm s = true
                          /\ valid df (gflux s) = true).
  { intros s Hin. apply filter_In in Hin. destruct Hin as [Hin Hk].
    split; [exact Hk |]. rewrite Forall_forall in Hv. now apply Hv. }
  assert (Hg : map (fun r => subtract dm
                               (convert dm dm (gmag_corrected1 dc dm r))
                               (convert dm dm (gmag r))) excluded
               = map (fun r => if is_finite (gmag r) then zero
                               else S754_nan) excluded).
  { apply map_ext_in. intros s Hin. destruct (Hex s Hin) as [Hk _].
    destruct (excluded_outside_regimes dm s Hk) as [Hb Hf].
    rewrite !convert_same.
    rewrite (gmag_unchanged dc dm s HL (factor_outside_regimes dc dm s Hb Hf)).
    apply SFsub_diag. }
  assert (Hf : map (fun r => divide (result_type df dm)
                               (convert (result_type df dm) (result_type df dm)
                                        (gflux_corrected1 dc dm df r))
                               (convert df (result_type df dm) (gflux r)))
                   excluded
               = map (fun r => if is_finite_nonzero (gflux r)
                               then one (result_type df dm)
                               else S754_nan) excluded).
  { apply map_ext_in. intros s Hin. destruct (Hex s Hin) as [Hk Hvs].
    destruct (excluded_outside_regimes dm s Hk) as [Hb Hf].
    rewrite convert_same.
    rewrite (gflux_unchanged dc dm df s Hvs
               (factor_outside_regimes dc dm s Hb Hf)).
    rewrite SFdiv_diag. now rewrite is_finite_nonzero_convert. }
  unfold nanmin, nanmax, column. rewrite Hg, Hf.
  subst dg fr. generalize (result_type df dm). intros rt.
  rewrite !reduce_select by (destruct rt; reflexivity).
  now destruct excluded.
Qed.

(** X6 (nulls are kept).  For arrays of one shape, a source whose
    magnitude is NaN has a NaN corrected magnitude, and a source whose
    flux is NaN has a NaN corrected flux: the corrected columns have at
    least as many nulls as the columns they come from. *)
Theorem null_counts_never_decrease (a : farray spec_float) (b : ndarray Z)
        (c d : farray spec_float) :
  well_formed a -> well_formed_int b -> well_formed c -> well_formed d ->
  same_shape a b c d = true ->
  exists gm gf,
    correct_gband (Array a) (Array b) (Array c) (Array d) = Ok (gm, gf)
    /\ (forall i s,
           nth_error (sources a b c d) i = Some s ->
           (isnan (gmag s) = true -> nth_error (fdata gm) i = Some S754_nan)
           /\ (isnan (gflux s) = true ->
               nth_error (fdata gf) i = Some S754_nan))
    /\ (count_nan c <= count_nan gm)%nat
    /\ (count_nan d <= count_nan gf)%nat.
Proof.
  intros Wa Wb Wc Wd Hs.
  destruct (accepted_returns _ _ _ _ _ _ _ _
              (accepted_arrays a b c d Wa Wb Wc Wd Hs)) as (E & _).
  cbv zeta in E.
  destruct (arrays_as_columns a b c d Wa Wb Wc Wd Hs)
    as (_ & _ & Ec & Edd & _).
  cbv zeta in Ec, Edd.
  assert (Hm : forall s, isnan (gmag s) = true ->
                 gmag_corrected1 (dtype_of a) (dtype_of c) s = S754_nan).
  { intros s Hn. unfold gmag_corrected1. rewrite (is_nan_eq _ Hn).
    reflexivity. }
  assert (Hf : forall s, isnan (gflux s) = true ->
                 gflux_corrected1 (dtype_of a) (dtype_of c) (dtype_of d) s
                 = S754_nan).
  { intros s Hn. unfold gflux_corrected1. rewrite (is_nan_eq _ Hn).
    replace (convert (dtype_of d)
               (result_type (dtype_of d) (dtype_of c)) S754_nan)
      with S754_nan by (now destruct (dtype_of d), (dtype_of c)).
    reflexivity. }
  eexists _, _. split; [exact E |]. split; [| split].
  - intros i s Hi. rewrite !(nth_error_column _ _ _ _ _ _ Hi).
    split; intros Hn; f_equal; auto.
  - rewrite (count_nan_data c _ _ (f_equal (@fdata _) Ec)).
    rewrite (count_nan_data (column _ _ _ _) _ _ eq_refl).
    apply filter_length_le. intros s _ Hn. now rewrite (Hm s Hn).
  - rewrite (count_nan_data d _ _ (f_equal (@fdata _) Edd)).
    rewrite (count_nan_data (column _ _ _ _) _ _ eq_refl).
    apply filter_length_le. intros s _ Hn. now rewrite (Hf s Hn).
Qed.
Lemma digits2_pos_lt m1 m2 :
  (digits2_pos m1 < digits2_pos m2)%positive -> (m1 < m2)%positive.
Proof.
  revert m2. induction m1 as [p IH | p IH |]; intros [q | q |];
    cbn [digits2_pos]; intros H; try lia.
  - assert (p < q)%positive by (apply IH; lia). lia.
  - assert (p < q)%positive by (apply IH; lia). lia.
  - assert (p < q)%positive by (apply IH; lia). lia.
  - assert (p < q)%positive by (apply IH; lia). lia.
Qed.

Lemma compare_iter_xO m1 m2 d :
  Pos.compare_cont Eq (Pos.iter xO m1 d) (Pos.iter xO m2 d)
  = Pos.compare_cont Eq m1 m2.
Proof.
  induction d as [| d IH] using Pos.peano_ind.
  - reflexivity.
  - rewrite !Pos.iter_succ. exact IH.
Qed.

(** The exponent a single-precision number takes in double precision. *)
Lemma widen_exponent m e d :
  SpecFloat.bounded (prec float32) (emax float32) m e = true ->
  SpecFloat.bounded (prec float64) (emax float64) (Pos.iter xO m d) (e - Zpos d)
  = true ->
  Zpos d = 53 - Zpos (digits2_pos m)
  /\ -149 <= e /\ Zpos (digits2_pos m) <= 24
  /\ (Zpos (digits2_pos m) = 24 \/ e = -149).
Proof.
  intros H32 H64.
  destruct (bounded_inv float32 _ _ H32) as [C32 _].
  destruct (bounded_inv float64 _ _ H64) as [C64 _].
  rewrite digits2_pos_iter_xO in C64.
  unfold fexp, emin in C32, C64. cbn [prec emax] in C32, C64.
  lia.
Qed.

Lemma compare_widen m1 e1 d1 m2 e2 d2 :
  SpecFloat.bounded (prec float32) (emax float32) m1 e1 = true ->
  SpecFloat.bounded (prec float32) (emax float32) m2 e2 = true ->
  SpecFloat.bounded (prec float64) (emax float64) (Pos.iter xO m1 d1) (e1 - Zpos d1)
  = true ->
  SpecFloat.bounded (prec float64) (emax float64) (Pos.iter xO m2 d2) (e2 - Zpos d2)
  = true ->
  match e1 - Zpos d1 ?= e2 - Zpos d2 with
  | Eq => Pos.compare_cont Eq (Pos.iter xO m1 d1) (Pos.iter xO m2 d2)
  | Lt => Lt
  | Gt => Gt
  end
  = match e1 ?= e2 with
    | Eq => Pos.compare_cont Eq m1 m2
    | Lt => Lt
    | Gt => Gt
    end.
Proof.
  intros B1 B2 W1 W2.
  destruct (widen_exponent _ _ _ B1 W1) as (D1 & L1 & U1 & N1).
  destruct (widen_exponent _ _ _ B2 W2) as (D2 & L2 & U2 & N2).
  destruct (Z.compare_spec e1 e2) as [E | E | E].
  - subst e2.
    destruct (Pos.compare_spec (digits2_pos m1) (digits2_pos m2))
      as [G | G | G].
    + assert (d1 = d2) by lia. subst d2.
      rewrite Z.compare_refl. apply compare_iter_xO.
    + pose proof (digits2_pos_lt _ _ G) as Hm.
      replace (e1 - Z.pos d1 ?= e1 - Z.pos d2) with Lt
        by (symmetry; apply Z.compare_lt_iff; lia).
      symmetry. now apply Pos.compare_lt_iff.
    + pose proof (digits2_pos_lt _ _ G) as Hm.
      replace (e1 - Z.pos d1 ?= e1 - Z.pos d2) with Gt
        by (symmetry; apply Z.compare_gt_iff; lia).
      symmetry. now apply Pos.compare_gt_iff.
  - replace (e1 - Z.pos d1 ?= e2 - Z.pos d2) with Lt
      by (symmetry; apply Z.compare_lt_iff; lia).
    reflexivity.
  - replace (e1 - Z.pos d1 ?= e2 - Z.pos d2) with Gt
      by (symmetry; apply Z.compare_gt_iff; lia).
    reflexivity.
Qed.

(** Comparisons of single-precision numbers are the comparisons of their
    conversions to double precision. *)
Lemma SFcompare_widen x y :
  valid float32 x = true -> valid float32 y = true ->
  SFcompare (cast float64 x) (cast float64 y) = SFcompare x y.
Proof.
  intros Hx Hy.
  destruct x as [sx | sx | | sx mx ex], y as [sy | sy | | sy my ey];
    try reflexivity;
    try (destruct (cast_widen sx mx ex Hx) as (d1 & E1 & W1); rewrite E1);
    try (destruct (cast_widen sy my ey Hy) as (d2 & E2 & W2); rewrite E2);
    try reflexivity.
  cbn [SFcompare].
  pose proof (compare_widen _ _ _ _ _ _ Hx Hy W1 W2) as H.
  destruct sx, sy; try reflexivity.
  - f_equal.
    destruct (ex - Z.pos d1 ?= ey - Z.pos d2), (ex ?= ey);
      first [ reflexivity | discriminate
            | rewrite H; reflexivity | rewrite <- H; reflexivity ].
  - f_equal. exact H.
Qed.

Lemma is_nan_convert dt x :
  valid dt x = true -> is_nan (convert dt float64 x) = is_nan x.
Proof.
  intros Hv. destruct dt; [| reflexivity].
  cbn [convert dtype_eqb astype numeric].
  destruct x as [| | | s m e]; try reflexivity.
  destruct (cast_widen s m e Hv) as (d & -> & _). reflexivity.
Qed.

(** The thresholds and the bounds are the same numbers in both
    precisions. *)
Lemma exact_literals dt :
  Forall (fun q => valid dt (pyscalar dt q) = true
                   /\ pyscalar float64 q = convert dt float64 (pyscalar dt q))
         [13; 16; 0.25; 3.0]%Q.
Proof. destruct dt; repeat constructor. Qed.

Lemma SFcompare_convert dt x y :
  valid dt x = true -> valid dt y = true ->
  SFcompare (convert dt float64 x) (convert dt float64 y) = SFcompare x y.
Proof.
  intros Hx Hy. destruct dt; [| reflexivity].
  now apply SFcompare_widen.
Qed.

Lemma maximum_convert dt x y :
  valid dt x = true -> valid dt y = true ->
  maximum (convert dt float64 x) (convert dt float64 y)
  = convert dt float64 (maximum x y)
  /\ valid dt (maximum x y) = true.
Proof.
  intros Hx Hy. unfold maximum. cbn [isnan less numeric].
  rewrite (is_nan_convert dt x Hx). unfold SFltb.
  rewrite (SFcompare_convert dt y x Hy Hx).
  destruct (is_nan x); [now split |].
  destruct (SFcompare y x) as [[| |] |]; now split.
Qed.

Lemma minimum_convert dt x y :
  valid dt x = true -> valid dt y = true ->
  minimum (convert dt float64 x) (convert dt float64 y)
  = convert dt float64 (minimum x y).
Proof.
  intros Hx Hy. unfold minimum. cbn [isnan less numeric].
  rewrite (is_nan_convert dt x Hx). unfold SFltb.
  rewrite (SFcompare_convert dt x y Hx Hy).
  destruct (is_nan x); [reflexivity |].
  now destruct (SFcompare x y) as [[| |] |].
Qed.

Lemma clip1_convert dt x :
  valid dt x = true ->
  clip1 float64 (convert dt float64 x) 0.25 3.0
  = convert dt float64 (clip1 dt x 0.25 3.0).
Proof.
  intros Hx. pose proof (exact_literals dt) as H.
  inversion_clear H as [| ? ? _ H1]. inversion_clear H1 as [| ? ? _ H2].
  inversion_clear H2 as [| ? ? [Vlo Elo] H3].
  inversion_clear H3 as [| ? ? [Vhi Ehi] _].
  unfold clip1. rewrite Elo, Ehi.
  destruct (maximum_convert dt x _ Hx Vlo) as [-> Vm].
  now apply minimum_convert.
Qed.

Lemma masks_convert dc dm (s : source spec_float) :
  valid dc (colour s) = true -> valid dm (gmag s) = true ->
  let s1 := mk_source (convert dc float64 (colour s)) (params_solved s)
                      (convert dm float64 (gmag s)) (gflux s) in
  do_not_correct1 float64 s1 = do_not_correct1 dm s
  /\ bright_correct1 float64 s1 = bright_correct1 dm s
  /\ faint_correct1 float64 s1 = faint_correct1 dm s.
Proof.
  intros Hc Hm s1.
  pose proof (exact_literals dm) as H.
  inversion_clear H as [| ? ? [V13 E13] H1].
  inversion_clear H1 as [| ? ? [V16 E16] _].
  assert (Hd : do_not_correct1 float64 s1 = do_not_correct1 dm s).
  { unfold do_not_correct1, s1. cbn [colour gmag params_solved].
    cbn [isnan less_equal numeric]. rewrite (is_nan_convert dc _ Hc).
    unfold SFleb. rewrite E13, (SFcompare_convert dm _ _ Hm V13).
    reflexivity. }
  unfold bright_correct1, faint_correct1. rewrite Hd.
  unfold s1. cbn [colour gmag params_solved].
  cbn [less less_equal numeric]. unfold SFleb, SFltb.
  rewrite E13, E16.
  rewrite (SFcompare_convert dm _ _ V13 Hm), (SFcompare_convert dm _ _ V16 Hm),
    (SFcompare_convert dm _ _ Hm V16).
  now repeat split.
Qed.

(** X11 (the scalar check and the regimes).  The notebook compares the
    results for the table with the results of calls on the rows, passed as
    Python numbers.  For arrays of one shape whose colours and magnitudes
    are values of their dtype (single or double precision), the call on
    row [i] as Python numbers computes for its one source the
    do-not-correct, bright and faint masks that the call on the arrays
    computes at index [i], and its clipped colour is the clipped colour
    of the arrays at [i], converted exactly to double precision: the two
    calls can differ only in the rounding of the arithmetic that
    follows. *)
Theorem scalar_call_same_regime (a : farray spec_float) (b : ndarray Z)
        (c d : farray spec_float) (i : nat) (s : source spec_float) :
  well_formed a -> well_formed_int b -> well_formed c -> well_formed d ->
  same_shape a b c d = true ->
  nth_error (sources a b c d) i = Some s ->
  valid (dtype_of a) (colour s) = true ->
  valid (dtype_of c) (gmag s) = true ->
  let x := convert (dtype_of a) float64 (colour s) in
  let m := convert (dtype_of c) float64 (gmag s) in
  let a1 := mk_farray float64 [] [x] in
  let b1 := mk_ndarray [] [params_solved s] in
  let c1 := mk_farray float64 [] [m] in
  let dnc := do_not_correct a b c in
  let dnc1 := do_not_correct a1 b1 c1 in
  (float_item i a = Some (Scalar x)
   /\ int_item i b = Some (Scalar (params_solved s))
   /\ float_item i c = Some (Scalar m))
  /\ (forall f,
         normalize (Scalar x) (Scalar (params_solved s)) (Scalar m) (Scalar f)
         = (a1, b1, c1, mk_farray float64 [] [f]))
  /\ (exists k br fa,
         (nth_error (data dnc) i = Some k
          /\ nth_error (data (bright_correct dnc c)) i = Some br
          /\ nth_error (data (faint_correct dnc c)) i = Some fa)
         /\ dnc1 = mk_ndarray [] [k]
         /\ bright_correct dnc1 c1 = mk_ndarray [] [br]
         /\ faint_correct dnc1 c1 = mk_ndarray [] [fa])
  /\ np_clip a1 0.25 3.0
     = mk_farray float64 []
         [convert (dtype_of a) float64
                  (clip1 (dtype_of a) (colour s) 0.25 3.0)].
Proof.
  intros Wa Wb Wc Wd Hs Hi Vc Vm x m a1 b1 c1 dnc dnc1.
  destruct (accepted_returns _ _ _ _ _ _ _ _
              (accepted_arrays a b c d Wa Wb Wc Wd Hs))
    as (_ & _ & Ed & Eb & Ef).
  cbv zeta in Ed, Eb, Ef.
  destruct (arrays_as_columns a b c d Wa Wb Wc Wd Hs)
    as (Ea & Ebb & Ec & _).
  cbv zeta in Ea, Ebb, Ec.
  apply (f_equal (@fdata spec_float)) in Ea, Ec.
  apply (f_equal (@data Z)) in Ebb. cbn [column fdata data] in Ea, Ebb, Ec.
  destruct (masks_convert (dtype_of a) (dtype_of c) s Vc Vm)
    as (Hd & Hb & Hf).
  cbv zeta in Hd, Hb, Hf.
  split; [| split; [| split]].
  - unfold float_item, int_item. rewrite Ea, Ebb, Ec.
    rewrite !(map_nth_error _ _ _ Hi). now repeat split.
  - reflexivity.
  - eexists _, _, _. split.
    + subst dnc. rewrite Eb, Ef, Ed.
      rewrite !(nth_error_mask _ _ _ _ _ Hi). now repeat split.
    + rewrite <- Hd, <- Hb, <- Hf. now repeat split.
  - unfold np_clip, a1. cbn [dtype_of fshape fdata map].
    unfold x. now rewrite (clip1_convert _ _ Vc).
Qed.
(** A source that is not excluded and whose magnitude is a number is
    eligible. *)
Lemma not_excluded_eligible dm (s : source spec_float) :
  do_not_correct1 dm s = false -> isnan (gmag s) = false -> eligible dm s.
Proof.
  intros Hk Hn. unfold do_not_correct1 in Hk.
  apply orb_false_elim in Hk. destruct Hk as [Hk Hp].
  apply orb_false_elim in Hk. destruct Hk as [Hc Hm].
  cbn [isnan less less_equal numeric] in *.
  rewrite (SFleb_negb_SFltb _ _ Hn (proj1 (is_nan_threshold dm))) in Hm.
  apply negb_false_iff in Hm. apply negb_false_iff in Hp.
  split; [exact Hc |]. split; [now apply Z.eqb_eq | exact Hm].
Qed.

(** X12 (the corrections are only applied where the docstring says).
    With a C library whose [log10(1)] is [+0], in a call that passes the
    shape check, a source whose correction factor is not 1.0, or whose
    corrected magnitude is not its magnitude, or whose corrected flux is
    not the number its flux is, has the solution code 95, a magnitude
    above 13 and a colour that is not NaN. *)
Theorem corrected_only_if_eligible bp aps mag flux a b c d :
  log10_one L ->
  accepted bp aps mag flux a b c d ->
  exists gm gf,
    correct_gband bp aps mag flux = Ok (gm, gf)
    /\ forall i s,
        nth_error (sources a b c d) i = Some s ->
        valid (dtype_of d) (gflux s) = true ->
        exists cf g f,
          nth_error (fdata (correction_factor a b c)) i = Some cf
          /\ nth_error (fdata gm) i = Some g
          /\ nth_error (fdata gf) i = Some f
          /\ (cf <> one (dtype_of c) \/ g <> gmag s
              \/ number f <> number (gflux s) ->
              params_solved s = 95
              /\ SFltb (pyscalar (dtype_of c) 13) (gmag s) = true
              /\ is_nan (colour s) = false).
Proof.
  intros HL Hacc.
  destruct (accepted_returns _ _ _ _ _ _ _ _ Hacc) as (E & Ecf & _).
  cbv zeta in E, Ecf.
  eexists _, _. split; [exact E |].
  intros i s Hi Hv. rewrite Ecf, !(nth_error_column _ _ _ _ _ _ Hi).
  eexists _, _, _. split; [reflexivity |]. split; [reflexivity |].
  split; [reflexivity |].
  set (dc := dtype_of a). set (dm := dtype_of c). set (df := dtype_of d).
  intros Hdiff.
  assert (Hsame : correction_factor1 dc dm s = one dm ->
                  False).
  { intros Hcf. destruct Hdiff as [H | [H | H]].
    - now apply H.
    - apply H. now apply gmag_unchanged.
    - apply H. rewrite (gflux_unchanged dc dm df s Hv Hcf).
      now apply number_convert. }
  destruct (do_not_correct1 dm s) eqn:Hk.
  { exfalso. apply Hsame.
    destruct (excluded_outside_regimes dm s Hk) as [Hb Hf].
    now apply factor_outside_regimes. }
  destruct (isnan (gmag s)) eqn:Hn.
  { exfalso. apply Hsame.
    destruct (nan_outside_regimes dm s Hn) as [Hb Hf].
    now apply factor_outside_regimes. }
  destruct (not_excluded_eligible dm s Hk Hn) as (Hc & Hp & Hm).
  split; [exact Hp |]. split; [exact Hm | exact Hc].
Qed.
End IEEE_properties.

(** ** The example table *)

(** The example table has a magnitude column in single precision and a
    flux column in double precision: the corrected magnitude is in single
    precision and the corrected flux in double precision. *)
Lemma result_dtype_witness :
  exists gm gf,
    IEEE.correct_gband_ref (Array IEEE.ex_bp_rp) (Array IEEE.ex_aps)
                           (Array IEEE.ex_mag) (Array IEEE.ex_flux)
    = Ok (gm, gf)
    /\ dtype_of gm = float32 /\ dtype_of gf = float64
    /\ fshape gm = [6%nat] /\ fshape gf = [6%nat].
Proof.
  destruct (accepted_returns _ _ _ _ _ _ _ _ ex_accepted) as (E & _).
  cbv zeta in E. eexists _, _. split; [exact E |].
  destruct (result_dtype (Array IEEE.ex_bp_rp) (Array IEEE.ex_aps)
              (Array IEEE.ex_mag) (Array IEEE.ex_flux) _ _
              (proj1 ex_accepted) E) as (H & _).
  exact (H _ _ _ _ eq_refl eq_refl eq_refl eq_refl).
Defined.

(** Rows 1 and 2 of the example table. *)
Lemma slice_commutes_witness :
  exists gm gf,
    IEEE.correct_gband_ref (Array IEEE.ex_bp_rp) (Array IEEE.ex_aps)
                           (Array IEEE.ex_mag) (Array IEEE.ex_flux)
    = Ok (gm, gf)
    /\ IEEE.correct_gband_ref (Array (slice 1 3 IEEE.ex_bp_rp))
                              (Array (slice_int 1 3 IEEE.ex_aps))
                              (Array (slice 1 3 IEEE.ex_mag))
                              (Array (slice 1 3 IEEE.ex_flux))
       = Ok (slice 1 3 gm, slice 1 3 gf).
Proof.
  exact (slice_commutes IEEE.ex_bp_rp IEEE.ex_aps IEEE.ex_mag IEEE.ex_flux
           1 3 6 eq_refl eq_refl eq_refl eq_refl
           eq_refl eq_refl eq_refl eq_refl).
Defined.

(** The fourth source of the example table has a NaN magnitude, the
    colour 1.0 and the solution code 95: it is in none of the three
    masks. *)
Lemma masks_cover_witness :
  let dnc := do_not_correct IEEE.ex_bp_rp IEEE.ex_aps IEEE.ex_mag in
  nth_error (data dnc) 3 = Some false
  /\ nth_error (data (bright_correct dnc IEEE.ex_mag)) 3 = Some false
  /\ nth_error (data (faint_correct dnc IEEE.ex_mag)) 3 = Some false.
Proof.
  intros dnc.
  destruct (@masks_cover IEEE.libm_ref _ _ _ _ _ _ _ _ ex_accepted
              3%nat (mk_source _ _ _ _) eq_refl)
    as (k & br & fa & Hk & Hb & Hf & _ & Hnan).
  destruct (Hnan eq_refl) as (Eb & Ef & Ek).
  subst br fa k.
  split; [exact Hk | split; [exact Hb | exact Hf]].
Defined.

(** The table of three sources with colours 0.1, 3.5 and 1.0. *)
Lemma clip_before_call_witness :
  IEEE.correct_gband_ref (Array (np_clip IEEE.ex_clip_bp_rp 0.25 3.0))
                         (Array IEEE.ex_clip_aps) (Array IEEE.ex_clip_mag)
                         (Array IEEE.ex_clip_flux)
  = IEEE.correct_gband_ref (Array IEEE.ex_clip_bp_rp)
                           (Array IEEE.ex_clip_aps) (Array IEEE.ex_clip_mag)
                           (Array IEEE.ex_clip_flux).
Proof.
  exact (@clip_before_call IEEE.libm_ref IEEE.ex_clip_bp_rp IEEE.ex_clip_aps
           IEEE.ex_clip_mag IEEE.ex_clip_flux
           eq_refl eq_refl eq_refl eq_refl).
Defined.

(** In the example table the sources for which no correction is expected
    are the second (NaN colour), the third (solution code 31) and the
    sixth (magnitude 12.0): the ranges are 0.0--0.0 and 1.0--1.0. *)
Lemma ranges_where_not_corrected_witness :
  @Notebook.ranges IEEE.libm_ref IEEE.ex_bp_rp IEEE.ex_aps IEEE.ex_mag
                   IEEE.ex_flux
  = Ok ((IEEE.zero, IEEE.zero), (IEEE.one float64, IEEE.one float64)).
Proof.
  assert (Hv : Forall (fun s => IEEE.valid (dtype_of IEEE.ex_flux) (gflux s)
                                = true)
                 (sources IEEE.ex_bp_rp IEEE.ex_aps IEEE.ex_mag
                          IEEE.ex_flux))
    by (repeat constructor).
  refine (eq_trans
            (@ranges_where_not_corrected IEEE.libm_ref IEEE.ex_bp_rp
               IEEE.ex_aps IEEE.ex_mag IEEE.ex_flux libm_ref_log10_one
               eq_refl eq_refl eq_refl eq_refl eq_refl Hv) _).
  vm_compute. reflexivity.
Defined.

(** The fourth source of the example table has a NaN magnitude. *)
Lemma null_counts_never_decrease_witness :
  exists gm gf,
    IEEE.correct_gband_ref (Array IEEE.ex_bp_rp) (Array IEEE.ex_aps)
                           (Array IEEE.ex_mag) (Array IEEE.ex_flux)
    = Ok (gm, gf)
    /\ nth_error (fdata gm) 3 = Some S754_nan
    /\ (count_nan IEEE.ex_mag <= count_nan gm)%nat
    /\ (count_nan IEEE.ex_flux <= count_nan gf)%nat.
Proof.
  destruct (@null_counts_never_decrease IEEE.libm_ref IEEE.ex_bp_rp
              IEEE.ex_aps IEEE.ex_mag IEEE.ex_flux
              eq_refl eq_refl eq_refl eq_refl eq_refl)
    as (gm & gf & E & H & C1 & C2).
  exists gm, gf. split; [exact E |].
  split; [exact (proj1 (H 3%nat (mk_source _ _ _ _) eq_refl) eq_refl) |].
  split; [exact C1 | exact C2].
Defined.

(** The first source of the example table: colour 1.5 and magnitude 17.0
    in single precision; it is in the faint regime in both calls. *)
Lemma scalar_call_same_regime_witness :
  let a1 := mk_farray float64 []
              [IEEE.cast float64 (IEEE.round_Q float32 1.5)] in
  let b1 := mk_ndarray [] [95%Z] in
  let c1 := mk_farray float64 []
              [IEEE.cast float64 (IEEE.round_Q float32 17.0)] in
  let dnc := do_not_correct IEEE.ex_bp_rp IEEE.ex_aps IEEE.ex_mag in
  nth_error (data (faint_correct dnc IEEE.ex_mag)) 0 = Some true
  /\ faint_correct (do_not_correct a1 b1 c1) c1 = mk_ndarray [] [true]
  /\ np_clip a1 0.25 3.0 = a1.
Proof.
  intros a1 b1 c1 dnc.
  destruct (@scalar_call_same_regime IEEE.libm_ref IEEE.ex_bp_rp IEEE.ex_aps
              IEEE.ex_mag IEEE.ex_flux 0%nat (mk_source _ _ _ _)
              eq_refl eq_refl eq_refl eq_refl eq_refl eq_refl
              eq_refl eq_refl)
    as (_ & _ & (k & br & fa & (_ & _ & Hfa) & _ & _ & Hfa1) & Hclip).
  assert (Efa : true = fa).
  { apply (f_equal (@data bool)) in Hfa1. vm_compute in Hfa1.
    now injection Hfa1. }
  subst fa.
  split; [exact Hfa | split; [exact Hfa1 | exact Hclip]].
Defined.

(** The first source of the example table is corrected: its factor is not
    1.0; it has the solution code 95, the magnitude 17.0 and the colour
    1.5. *)
Lemma corrected_only_if_eligible_witness :
  exists gm gf cf,
    IEEE.correct_gband_ref (Array IEEE.ex_bp_rp) (Array IEEE.ex_aps)
                           (Array IEEE.ex_mag) (Array IEEE.ex_flux)
    = Ok (gm, gf)
    /\ nth_error (fdata (IEEE.correction_factor_ref
                           IEEE.ex_bp_rp IEEE.ex_aps IEEE.ex_mag)) 0
       = Some cf
    /\ cf <> IEEE.one float32
    /\ SFltb (IEEE.round_Q float32 13) (IEEE.round_Q float32 17.0) = true.
Proof.
  destruct (@corrected_only_if_eligible IEEE.libm_ref _ _ _ _ _ _ _ _
              libm_ref_log10_one ex_accepted) as (gm & gf & E & H).
  destruct (H 0%nat (mk_source _ _ _ _) eq_refl eq_refl)
    as (cf & g & f & Hcf & _ & _ & Hel).
  assert (Hne : cf <> IEEE.one float32).
  { intros ->. vm_compute in Hcf. discriminate Hcf. }
  exists gm, gf, cf. split; [exact E |]. split; [exact Hcf |].
  split; [exact Hne |]. exact (proj1 (proj2 (Hel (or_introl Hne)))).
Defined.

(** ** In exact arithmetic *)

Section Ideal_properties.
Import Ideal.
Local Open Scope R_scope.
















End Ideal_properties.
